(** * EETT antenna scraper: header mapping, row extraction, table location,
      pagination detection and the paging loop of [eett_scraper.py].

    Text is kept as Rocq [string]s holding the UTF-8 encoding of the Python
    [str].  Python's [needle in text] is substring containment over code
    points; on well-formed UTF-8 it coincides with containment of the
    encoded byte sequences, which is what [contains] below decides.
    Where the code looks at single characters ([str.isdigit], [int], the
    pattern class [\d]) the text is decoded into its code points; which
    code points are digits, and how long a number [int] converts, is the
    interpreter's business and is taken as given ([interpreter]). *)

From Stdlib Require Import ZArith Ascii String.
From stdpp Require Import base gmap strings list fin_maps.

Open Scope string_scope.
Open Scope list_scope.

(** ** Python values used by the scraper *)

(** Exceptions the modelled code can raise. [RequestException] stands for
    the whole [requests.RequestException] hierarchy (connection errors,
    timeouts and the [HTTPError] of [raise_for_status]). *)
Inductive exn : Type :=
| RequestException
| IndexError
| KeyError
| ValueError.

Inductive result (A : Type) : Type :=
| Ok (a : A)
| Raise (e : exn).
Arguments Ok {A} a.
Arguments Raise {A} e.

#[global] Instance result_ret : MRet result := fun A a => Ok a.
#[global] Instance result_bind : MBind result := fun A B k r =>
  match r with
  | Ok a => k a
  | Raise e => Raise e
  end.

(** [needle in text] *)
Fixpoint contains (needle text : string) : bool :=
  String.prefix needle text ||
  match text with
  | EmptyString => false
  | String _ rest => contains needle rest
  end.

(** ** Header Mapper *)

(** A table row as [find_all] sees it: its cells in document order, each a
    [th] or a [td], with the text [get_text(strip=True)] returns. *)
Inductive cell_tag : Type := Th | Td.

Record cell : Type := Cell { tag : cell_tag; get_text : string }.

Definition is_td (c : cell) : bool :=
  match tag c with Td => true | Th => false end.

(** [row.find_all(['th', 'td'])] and [row.find_all('td')] *)
Definition find_all_th_td (row : list cell) : list cell := row.
Definition find_all_td (row : list cell) : list cell := List.filter is_td row.

(** The [if]/[elif] chain of [_map_table_headers]: the key the cell's
    index is stored under, if any. *)
Definition header_key (text : string) : option string :=
  if contains "Κωδ." text && contains "θέσης" text then Some "position_code"
  else if contains "Κατηγορία" text then Some "category"
  else if contains "Εταιρία" text then Some "company"
  else if contains "Διεύθυνση" text then Some "address"
  else if contains "Δήμος" text then Some "municipality"
  else if contains "Κωδ. Θέσης" text then Some "sequence"
  else None.

(** The body of the [for i, cell in enumerate(header_cells)] loop, started
    at index [i] with the dictionary built so far. *)
Fixpoint map_headers_from (i : nat) (cells : list cell)
    (header_map : gmap string nat) : gmap string nat :=
  match cells with
  | [] => header_map
  | c :: rest =>
      let header_map' :=
        match header_key (get_text c) with
        | Some k => <[k := i]> header_map
        | None => header_map
        end in
      map_headers_from (S i) rest header_map'
  end.

Definition _map_table_headers (header_row : list cell) : gmap string nat :=
  map_headers_from 0 (find_all_th_td header_row) ∅.

Definition required_headers : list string :=
  ["position_code"; "company"; "address"; "municipality"].

Definition _validate_header_map (header_map : gmap string nat) : bool :=
  let missing_headers :=
    List.filter (fun h => bool_decide (header_map !! h = None)) required_headers in
  match missing_headers with
  | [] => true
  | _ :: _ => false
  end.

(** ** Row Extractor *)

(** One result row; the Python code builds a dict with exactly these keys. *)
Record antenna : Type := Antenna {
  sequence : string;
  position_code : string;
  category : string;
  company : string;
  address : string;
  municipality : string
}.

(** [cells[i]] for an index that is not negative. *)
Definition list_getitem {A : Type} (l : list A) (i : nat) : result A :=
  match l !! i with
  | Some x => Ok x
  | None => Raise IndexError
  end.

(** [header_map[k]], [header_map.get(k, d)] and [k in header_map]. *)
Definition dict_getitem (header_map : gmap string nat) (k : string) : result nat :=
  match header_map !! k with
  | Some v => Ok v
  | None => Raise KeyError
  end.

Definition dict_get (header_map : gmap string nat) (k : string) (d : nat) : nat :=
  default d (header_map !! k).

Definition dict_in (k : string) (header_map : gmap string nat) : bool :=
  bool_decide (is_Some (header_map !! k)).

(** [max(header_map.values())]; Python raises [ValueError] on an empty
    sequence. *)
Definition dict_values (header_map : gmap string nat) : list nat :=
  (map_to_list header_map).*2.

Definition max_values (header_map : gmap string nat) : result nat :=
  match dict_values header_map with
  | [] => Raise ValueError
  | v :: vs => Ok (max_list (v :: vs))
  end.

Definition required_cell (cells : list cell) (header_map : gmap string nat)
    (k : string) : result string :=
  i ← dict_getitem header_map k;
  c ← list_getitem cells i;
  Ok (get_text c).

Definition optional_cell (cells : list cell) (header_map : gmap string nat)
    (k : string) : result string :=
  if dict_in k header_map then
    c ← list_getitem cells (dict_get header_map k 0);
    Ok (get_text c)
  else Ok "".

(** The dict display of [_extract_antenna_data], its values evaluated in
    the order written. *)
Definition _extract_antenna_data (cells : list cell)
    (header_map : gmap string nat) : result antenna :=
  seq ← optional_cell cells header_map "sequence";
  pos ← required_cell cells header_map "position_code";
  cat ← optional_cell cells header_map "category";
  com ← required_cell cells header_map "company";
  adr ← required_cell cells header_map "address";
  mun ← required_cell cells header_map "municipality";
  Ok (Antenna seq pos cat com adr mun).

(** ** Table Locator *)

(** A table is the list of its rows, as [table.find_all('tr')] returns. *)
Definition table : Type := list (list cell).

(** The loop [for row in rows[1:]] of [_parse_table_results]. *)
Fixpoint parse_data_rows (header_map : gmap string nat)
    (rows : list (list cell)) : result (list antenna) :=
  match rows with
  | [] => Ok []
  | row :: rest =>
      let cells := find_all_td row in
      m ← max_values header_map;
      if bool_decide (m < length cells) then
        antenna_data ← _extract_antenna_data cells header_map;
        antennas ← parse_data_rows header_map rest;
        Ok (antenna_data :: antennas)
      else parse_data_rows header_map rest
  end.

Definition _parse_table_results (rows : table) : result (list antenna) :=
  match rows with
  | header_row :: (_ :: _) as data_rows =>
      let header_map := _map_table_headers header_row in
      if negb (_validate_header_map header_map) then Ok []
      else parse_data_rows header_map data_rows
  | _ => Ok []
  end.

(** The loop [for table in tables] of [_parse_results]: the first
    non-empty list a table yields is returned. *)
Fixpoint _parse_results (tables : list table) : result (list antenna) :=
  match tables with
  | [] => Ok []
  | t :: rest =>
      antennas ← _parse_table_results t;
      match antennas with
      | [] => _parse_results rest
      | _ :: _ => Ok antennas
      end
  end.

(** ** Documents *)

(** A link: its visible text and its [onclick] attribute (empty when
    absent). *)
Record a_tag : Type := ATag { a_text : string; onclick : string }.

(** A pagination item: [li.get('title', '')], [li.get('class', [])] and
    the links inside it in document order, [li.find_all('a')]. *)
Record li : Type := Li {
  title : string;
  classes : list string;
  a_tags : list a_tag
}.

(** [li.find('a')]: the first link inside the item. *)
Definition find_a (item : li) : option a_tag := head (a_tags item).

Record option_tag : Type := OptionTag { option_value : string; option_text : string }.

Record hidden_input : Type := HiddenInput { input_name : option string; input_value : string }.

(** What the scraper reads off a parsed page: [find_all('table')], the
    items of [find('ul', class_='pagination')] when there is one, the
    options of [find('select', {'name': 'municipality'})] when there is
    one, and [find_all('input', {'type': 'hidden'})]. *)
Record soup : Type := Soup {
  tables : list table;
  pagination_ul : option (list li);
  municipality_select : option (list option_tag);
  hidden_inputs : list hidden_input
}.

(** ** Characters *)

(** The characters of a text: the code points its UTF-8 bytes encode.
    [str.isdigit], [int] and the pattern class [\d] work on these. *)
Definition continuation (b : ascii) : N := N.land (N_of_ascii b) 63.

Fixpoint code_points (s : string) : list N :=
  match s with
  | EmptyString => []
  | String b s1 =>
      let n := N_of_ascii b in
      if (n <? 128)%N then n :: code_points s1
      else if (n <? 224)%N then
        match s1 with
        | String b1 s2 =>
            N.lor (N.shiftl (N.land n 31) 6) (continuation b1) :: code_points s2
        | _ => [n]
        end
      else if (n <? 240)%N then
        match s1 with
        | String b1 (String b2 s3) =>
            N.lor (N.shiftl (N.land n 15) 12)
              (N.lor (N.shiftl (continuation b1) 6) (continuation b2))
            :: code_points s3
        | _ => [n]
        end
      else
        match s1 with
        | String b1 (String b2 (String b3 s4)) =>
            N.lor (N.shiftl (N.land n 7) 18)
              (N.lor (N.shiftl (continuation b1) 12)
                 (N.lor (N.shiftl (continuation b2) 6) (continuation b3)))
            :: code_points s4
        | _ => [n]
        end
  end.

(** What the Python interpreter knows of digits, taken as given: the
    Unicode decimal digits (category Nd) with their values, which [int]
    and [\d] accept; the further characters [str.isdigit] accepts
    (superscripts, circled digits and the like); and whether the limit on
    integer string conversion lets [int] convert a run of digits
    (interpreters without the limit let it convert every run). *)
Record interpreter : Type := Interpreter {
  decimal_value : N → option nat;
  other_digit : N → bool;
  within_int_limit : list nat → bool
}.

(** The number a run of decimal digit values denotes. *)
Definition number_of (ds : list nat) : Z :=
  fold_left (fun acc d => (10 * acc + Z.of_nat d)%Z) ds 0%Z.

(** An interpreter for the examples: the ASCII and the Arabic-Indic
    decimal digits, the superscripts two, three and one as further
    digits, and conversion of runs of at most 4300 digits. *)
Definition sample_py : interpreter :=
  Interpreter
    (fun c =>
       if (48 <=? c)%N && (c <=? 57)%N then Some (N.to_nat (c - 48))
       else if (1632 <=? c)%N && (c <=? 1641)%N then Some (N.to_nat (c - 1632))
       else None)
    (fun c => N.eqb c 178 || N.eqb c 179 || N.eqb c 185)
    (fun ds => (length ds <=? 4300)%nat).

Section Interpreter.

Variable py : interpreter.

(** ** Pagination Detector *)

Definition is_decimal (c : N) : bool :=
  match decimal_value py c with Some _ => true | None => false end.

Definition is_digit (c : N) : bool := is_decimal c || other_digit py c.

(** [text.isdigit()] *)
Definition isdigit (text : list N) : bool :=
  match text with
  | [] => false
  | _ :: _ => forallb is_digit text
  end.

Fixpoint decimal_values (text : list N) : option (list nat) :=
  match text with
  | [] => Some []
  | c :: rest =>
      match decimal_value py c, decimal_values rest with
      | Some d, Some ds => Some (d :: ds)
      | _, _ => None
      end
  end.

(** [int(text)] on a text without sign, blanks or underscores, as every
    text is that passed [isdigit] or matched [\d+]: [ValueError] unless
    the text is a run of decimal digits that the conversion limit lets
    through. *)
Definition int (text : list N) : result Z :=
  match text with
  | [] => Raise ValueError
  | _ :: _ =>
      match decimal_values text with
      | Some ds => if within_int_limit py ds then Ok (number_of ds) else Raise ValueError
      | None => Raise ValueError
      end
  end.

(** The longest run of decimal digits [s] starts with: what a greedy
    [\d+] takes. *)
Fixpoint take_decimals (s : list N) : list N :=
  match s with
  | [] => []
  | c :: rest => if is_decimal c then c :: take_decimals rest else []
  end.

Fixpoint strip_prefix (p s : list N) : option (list N) :=
  match p, s with
  | [], _ => Some s
  | a :: p', b :: s' => if N.eqb a b then strip_prefix p' s' else None
  | _ :: _, [] => None
  end.

Definition startPage_label : list N := code_points "startPage.value=".

Definition apostrophe : N := 39.

Definition digits_at (s : list N) : option (list N) :=
  match take_decimals s with
  | [] => None
  | c :: d => Some (c :: d)
  end.

(** The pattern [startPage\.value='?(\d+)'?] anchored at the start of [s]:
    group 1 when it matches. The optional quote before the digits is
    taken when present and given back when no digit follows it. The
    optional quote after the digits does not change group 1. *)
Definition match_startPage (s : list N) : option (list N) :=
  match strip_prefix startPage_label s with
  | None => None
  | Some r =>
      match r with
      | q :: r1 =>
          if N.eqb q apostrophe then
            match digits_at r1 with
            | Some d => Some d
            | None => digits_at r
            end
          else digits_at r
      | [] => None
      end
  end.

(** [re.search(pattern, s)]: group 1 of the leftmost match. *)
Fixpoint re_search_startPage (s : list N) : option (list N) :=
  match match_startPage s with
  | Some d => Some d
  | None =>
      match s with
      | [] => None
      | _ :: rest => re_search_startPage rest
      end
  end.

(** The loop [for li in pagination_items] of [_has_next_page]. A failed
    [int] raises [ValueError] out of the loop. *)
Fixpoint scan_pagination_items (items : list li) (current_page_num : Z)
    : result bool :=
  match items with
  | [] => Ok false
  | item :: rest =>
      if (contains "Επόμενη" (title item) || contains "Next" (title item))
         && negb (bool_decide ("disabled" ∈ classes item))
      then Ok true
      else
        match find_a item with
        | Some a =>
            let text := code_points (a_text a) in
            text_above ←
              (if isdigit text
               then n ← int text; Ok (bool_decide (n > current_page_num)%Z)
               else Ok false);
            if (text_above : bool) then Ok true
            else
              match re_search_startPage (code_points (onclick a)) with
              | Some d =>
                  n ← int d;
                  if bool_decide (n > current_page_num)%Z then Ok true
                  else scan_pagination_items rest current_page_num
              | None => scan_pagination_items rest current_page_num
              end
        | None => scan_pagination_items rest current_page_num
        end
  end.

Definition _has_next_page (page : soup) (current_page_num : Z) : result bool :=
  match pagination_ul page with
  | None => Ok false
  | Some pagination_items => scan_pagination_items pagination_items current_page_num
  end.

(** ** Search Session Driver *)

(** Values of the form dictionary: strings, and the raw integer stored
    under [startPage]. *)
Inductive form_value : Type :=
| VStr (s : string)
| VInt (n : Z).

Record response : Type := Response { status_code : Z; content : soup }.

(** The portal as the scraper meets it: what the k-th [session.get] of the
    search page and a [session.post] of a form return or raise. *)
Record portal : Type := Portal {
  session_get : nat → result response;
  session_post : gmap string form_value → result response
}.

(** What a run does to the outside world, in order. *)
Inductive event : Type :=
| EvGet
| EvPost (data : gmap string form_value)
| EvSleep.

(** [response.raise_for_status()] raises [HTTPError], a
    [RequestException], on a 4xx or 5xx status. *)
Definition raise_for_status (r : response) : result unit :=
  if bool_decide (400 ≤ status_code r < 600)%Z then Raise RequestException
  else Ok tt.

(** Truth value of a [requests.Response]: its [ok] property. *)
Definition response_ok (r : response) : bool :=
  match raise_for_status r with
  | Ok _ => true
  | Raise _ => false
  end.

(** [try: body except requests.RequestException: handler] *)
Definition try_except_request {A : Type} (body : result A) (handler : result A) : result A :=
  match body with
  | Raise RequestException => handler
  | other => other
  end.

Definition _make_search_request (web : portal)
    (search_data : gmap string form_value) : result (option response) :=
  try_except_request
    (r ← session_post web search_data;
     _ ← raise_for_status r;
     Ok (Some r))
    (Ok None).

(** Local variables of [_scrape_all_pages], with the events so far. *)
Record loop_state : Type := LoopState {
  page_num : Z;
  all_antennas : list antenna;
  trace : list event
}.

Inductive step : Type :=
| Continue (st : loop_state)
| Break (st : loop_state)
| Propagate (e : exn) (st : loop_state).

(** [max_pages and page_num > max_pages]: [None] and [0] are both false
    in a condition. *)
Definition bound_reached (max_pages : option Z) (n : Z) : bool :=
  match max_pages with
  | None => false
  | Some m => negb (bool_decide (m = 0%Z)) && bool_decide (n > m)%Z
  end.

Definition page_form (search_data : gmap string form_value) (n : Z)
    : gmap string form_value :=
  <["myAction" := VStr (if bool_decide (n = 1%Z) then "search" else "page")]>
    (<["startPage" := VInt n]> search_data).

Definition log_event (ev : event) (st : loop_state) : loop_state :=
  LoopState (page_num st) (all_antennas st) (trace st ++ [ev]).

(** One pass through the body of [while True]. Log messages and, in debug
    mode, the dumps of the first two responses touch neither the loop's
    variables nor its control flow and are left out. An exception other
    than a [RequestException], such as the detector's [ValueError], leaves
    the loop and the function. *)
Definition loop_body (web : portal) (search_data : gmap string form_value)
    (max_pages : option Z) (st : loop_state) : step :=
  if bound_reached max_pages (page_num st) then Break st
  else
    let current_search_data := page_form search_data (page_num st) in
    let st1 := log_event (EvPost current_search_data) st in
    let body : result step :=
      r ← _make_search_request web current_search_data;
      match r with
      | None => Ok (Break st1)
      | Some resp =>
          if negb (response_ok resp) then Ok (Break st1)
          else
            antennas_on_page ← _parse_results (tables (content resp));
            match antennas_on_page with
            | [] => Ok (Break st1)
            | _ :: _ =>
                let st2 := LoopState (page_num st1)
                             (all_antennas st1 ++ antennas_on_page) (trace st1) in
                has_next ← _has_next_page (content resp) (page_num st2);
                if negb has_next
                then Ok (Break st2)
                else Ok (Continue
                           (log_event EvSleep
                              (LoopState (page_num st2 + 1) (all_antennas st2) (trace st2))))
            end
      end in
    match try_except_request body (Ok (Break st1)) with
    | Ok s => s
    | Raise e => Propagate e st1
    end.

(** How a run of the loop stands after at most [fuel] passes. *)
Inductive outcome : Type :=
| Returned (st : loop_state)
| Raised (e : exn) (st : loop_state)
| Running (st : loop_state).

(** The [while True] loop, run for at most [fuel] passes. *)
Fixpoint paging_loop (fuel : nat) (web : portal)
    (search_data : gmap string form_value) (max_pages : option Z)
    (st : loop_state) : outcome :=
  match fuel with
  | O => Running st
  | S fuel' =>
      match loop_body web search_data max_pages st with
      | Continue st' => paging_loop fuel' web search_data max_pages st'
      | Break st' => Returned st'
      | Propagate e st' => Raised e st'
      end
  end.

(** What a call did and how it ended: it returned a value, it let an
    exception escape, or it was still looping when the fuel ran out. *)
Inductive run : Type :=
| Done (value : list antenna) (events : list event)
| Failed (e : exn) (events : list event)
| Unfinished (events : list event).

Definition events_of (r : run) : list event :=
  match r with
  | Done _ events | Failed _ events | Unfinished events => events
  end.

Definition run_of (o : outcome) : run :=
  match o with
  | Returned st => Done (all_antennas st) (trace st)
  | Raised e st => Failed e (trace st)
  | Running st => Unfinished (trace st)
  end.

Definition _scrape_all_pages (fuel : nat) (web : portal)
    (search_data : gmap string form_value) (max_pages : option Z) : run :=
  run_of (paging_loop fuel web search_data max_pages (LoopState 1 [] [])).

(** The page requests among the events, and the pauses. *)
Definition is_post (ev : event) : bool :=
  match ev with EvPost _ => true | _ => false end.

Definition is_sleep (ev : event) : bool :=
  match ev with EvSleep => true | _ => false end.

Definition page_requests (events : list event) : nat :=
  length (List.filter is_post events).

Definition sleeps (events : list event) : nat :=
  length (List.filter is_sleep events).

(** [options[text] = value] on a dict that keeps insertion order. *)
Fixpoint dict_set (d : list (string * string)) (k v : string) : list (string * string) :=
  match d with
  | [] => [(k, v)]
  | (k', v') :: rest =>
      if String.eqb k' k then (k, v) :: rest else (k', v') :: dict_set rest k v
  end.

Definition nonempty (s : string) : bool :=
  match s with EmptyString => false | String _ _ => true end.

Definition collect_options (opts : list option_tag) : list (string * string) :=
  fold_left
    (fun options o =>
       if nonempty (option_value o) && nonempty (option_text o)
          && negb (String.eqb (option_value o) "")
       then dict_set options (option_text o) (option_value o)
       else options)
    opts [].

Definition get_municipality_options (web : portal) (gets : nat)
    : result (list (string * string)) :=
  try_except_request
    (resp ← session_get web gets;
     _ ← raise_for_status resp;
     match municipality_select (content resp) with
     | Some opts => Ok (collect_options opts)
     | None => Ok []
     end)
    (Ok []).

Definition base_search_data (municipality_value : string) : gmap string form_value :=
  <["siteId" := VStr ""]>
    (<["municipality" := VStr municipality_value]>
       (<["address" := VStr ""]> ∅)).

Definition add_hidden_inputs (inputs : list hidden_input)
    (search_data : gmap string form_value) : gmap string form_value :=
  fold_left
    (fun d h =>
       match input_name h with
       | Some name => if nonempty name then <[name := VStr (input_value h)]> d else d
       | None => d
       end)
    inputs search_data.

Definition _prepare_search_data (web : portal) (gets : nat)
    (municipality_value : string) : result (option (gmap string form_value)) :=
  try_except_request
    (resp ← session_get web gets;
     _ ← raise_for_status resp;
     Ok (Some (add_hidden_inputs (hidden_inputs (content resp))
                 (base_search_data municipality_value))))
    (Ok None).

Definition prepend_events (events : list event) (r : run) : run :=
  match r with
  | Done v evs => Done v (events ++ evs)
  | Failed e evs => Failed e (events ++ evs)
  | Unfinished evs => Unfinished (events ++ evs)
  end.

Section Search.

(** [str.lower], which the model does not interpret. *)
Variable lower : string → string.

Fixpoint _find_municipality_value (municipality_name : string)
    (municipality_options : list (string * string)) : option string :=
  match municipality_options with
  | [] => None
  | (name, value) :: rest =>
      if contains (lower municipality_name) (lower name)
         || contains (lower name) (lower municipality_name)
      then Some value
      else _find_municipality_value municipality_name rest
  end.

(** [search_municipality]: an [EvGet] is recorded for each fetch of the
    search page, also when the fetch fails; [fuel] bounds the number of
    passes of the paging loop. *)
Definition search_municipality (fuel : nat) (web : portal)
    (municipality_name : string) (max_pages : option Z) : run :=
  match get_municipality_options web 0 with
  | Raise e => Failed e [EvGet]
  | Ok municipality_options =>
      match _find_municipality_value municipality_name municipality_options with
      | None => Done [] [EvGet]
      | Some municipality_value =>
          if negb (nonempty municipality_value) then Done [] [EvGet]
          else
            match _prepare_search_data web 1 municipality_value with
            | Raise e => Failed e [EvGet; EvGet]
            | Ok None => Done [] [EvGet; EvGet]
            | Ok (Some search_data) =>
                if bool_decide (search_data = ∅) then Done [] [EvGet; EvGet]
                else prepend_events [EvGet; EvGet]
                       (_scrape_all_pages fuel web search_data max_pages)
            end
      end
  end.

End Search.

(** ** Reading the specification: header rules *)






(** ** Reading the specification: rows and tables *)

(** The text of the cell a field's column index points at, when the field
    is in the header map and the index is inside the row. *)
Definition field_text (cells : list cell) (header_map : gmap string nat)
    (k : string) : option string :=
  i ← header_map !! k; get_text <$> cells !! i.

(** A table whose first row maps to a valid header map. *)
Definition has_valid_header (t : table) : bool :=
  match t with
  | header_row :: _ => _validate_header_map (_map_table_headers header_row)
  | [] => false
  end.

(** The Table Locator as section 4.2 words it: the records of the first
    table with a valid header map, empty if there is none. *)
Definition spec_parse_results (tables : list table) : result (list antenna) :=
  match List.find has_valid_header tables with
  | Some t => _parse_table_results t
  | None => Ok []
  end.

(** ** Reading the specification: the three pagination signals *)

(** An item whose title contains a "next" term and that is not marked
    disabled. *)
Definition signal_next (item : li) : Prop :=
  (contains "Επόμενη" (title item) = true ∨ contains "Next" (title item) = true)
  ∧ "disabled" ∉ classes item.

(** The text is a number: a run of one or more decimal digits that [int]
    converts, to [v]. *)
Definition is_number (text : list N) (v : Z) : Prop :=
  ∃ ds, text ≠ []
        ∧ Forall2 (fun c d => decimal_value py c = Some d) text ds
        ∧ within_int_limit py ds = true
        ∧ v = number_of ds.

(** [r] starts with the run of decimal digits [d], which is not empty and
    is followed by no further decimal digit. *)
Definition decimal_run (r d : list N) : Prop :=
  d ≠ [] ∧ Forall (fun c => is_decimal c = true) d
  ∧ ∃ rest, r = d ++ rest
            ∧ match rest with
              | c :: _ => is_decimal c = false
              | [] => True
              end.

(** [s] starts with an assignment of the number [d] to [startPage]: the
    label, a quote or none, and the digits; with a quote where digits
    follow the quote. *)
Definition assignment_at (s d : list N) : Prop :=
  ∃ r, s = startPage_label ++ r
       ∧ ((∃ r1, r = apostrophe :: r1 ∧ decimal_run r1 d)
          ∨ ((∀ r1 d', r = apostrophe :: r1 → ¬ decimal_run r1 d')
             ∧ decimal_run r d)).

(** [d] is the number of the leftmost such assignment in [s]: one starts
    after [pre], none starts earlier. *)
Definition startPage_match (s d : list N) : Prop :=
  ∃ pre rest, s = pre ++ rest
              ∧ assignment_at rest d
              ∧ ∀ pre' rest' d', s = pre' ++ rest' →
                                 (length pre' < length pre)%nat →
                                 ¬ assignment_at rest' d'.

(** The link's visible text is a page number greater than the current
    page; the link's click action assigns to [startPage], leftmost, a
    number greater than the current page. *)
Definition link_number_above (a : a_tag) (current_page_num : Z) : Prop :=
  ∃ v, is_number (code_points (a_text a)) v ∧ (v > current_page_num)%Z.

Definition link_assignment_above (a : a_tag) (current_page_num : Z) : Prop :=
  ∃ d v, startPage_match (code_points (onclick a)) d
         ∧ is_number d v ∧ (v > current_page_num)%Z.

(** The two link signals as the code reads them, off the first link of
    the item. *)
Definition signal_page_number (item : li) (current_page_num : Z) : Prop :=
  ∃ a, find_a item = Some a ∧ link_number_above a current_page_num.

Definition signal_onclick (item : li) (current_page_num : Z) : Prop :=
  ∃ a, find_a item = Some a ∧ link_assignment_above a current_page_num.

(** The two link signals as the specification words them, off a link of
    the item. *)
Definition spec_signal_page_number (item : li) (current_page_num : Z) : Prop :=
  ∃ a, a ∈ a_tags item ∧ link_number_above a current_page_num.

Definition spec_signal_onclick (item : li) (current_page_num : Z) : Prop :=
  ∃ a, a ∈ a_tags item ∧ link_assignment_above a current_page_num.

(** The first link of the item carries digits that [int] does not
    convert: a text that [isdigit] accepts, or a [startPage] number. *)
Definition text_rejected (item : li) : Prop :=
  ∃ a, find_a item = Some a
       ∧ isdigit (code_points (a_text a)) = true
       ∧ ∀ v, ¬ is_number (code_points (a_text a)) v.

Definition assignment_rejected (item : li) : Prop :=
  ∃ a d, find_a item = Some a
         ∧ startPage_match (code_points (onclick a)) d
         ∧ ∀ v, ¬ is_number d v.

(** The item makes the scan answer true; the item lets the scan pass on
    to the next item; the item makes the scan raise. *)
Definition shows_signal (item : li) (current_page_num : Z) : Prop :=
  signal_next item
  ∨ signal_page_number item current_page_num
  ∨ (¬ text_rejected item ∧ signal_onclick item current_page_num).

Definition quiet (item : li) (current_page_num : Z) : Prop :=
  ¬ signal_next item
  ∧ ¬ signal_page_number item current_page_num
  ∧ ¬ signal_onclick item current_page_num
  ∧ ¬ text_rejected item
  ∧ ¬ assignment_rejected item.

Definition item_rejected (item : li) (current_page_num : Z) : Prop :=
  ¬ signal_next item
  ∧ (text_rejected item
     ∨ (¬ signal_page_number item current_page_num ∧ assignment_rejected item)).

(** ** Reading the specification: pages of a scrape *)

(** The records page [n] yields when it is requested: those of the parsed
    response, none when the request fails. *)
Definition page_antennas (web : portal) (search_data : gmap string form_value)
    (n : Z) : list antenna :=
  match _make_search_request web (page_form search_data n) with
  | Ok (Some r) =>
      match _parse_results (tables (content r)) with
      | Ok antennas => antennas
      | Raise _ => []
      end
  | _ => []
  end.

(** The Pagination Detector answers true for page [n]; not so when it
    answers false, when it raises, or when the request hands back no
    response. *)
Definition page_has_next (web : portal) (search_data : gmap string form_value)
    (n : Z) : bool :=
  match _make_search_request web (page_form search_data n) with
  | Ok (Some r) =>
      match _has_next_page (content r) n with
      | Ok has_next => has_next
      | Raise _ => false
      end
  | _ => false
  end.

(** The exception that leaves the loop on the pass for page [n], if any:
    one the request lets through, or one of the detector, which is asked
    when the page has records. *)
Definition page_exception (web : portal) (search_data : gmap string form_value)
    (n : Z) : option exn :=
  match _make_search_request web (page_form search_data n) with
  | Raise e => Some e
  | Ok None => None
  | Ok (Some r) =>
      match _parse_results (tables (content r)) with
      | Ok (_ :: _) =>
          match _has_next_page (content r) n with
          | Raise e => Some e
          | Ok _ => None
          end
      | _ => None
      end
  end.

(** Page [n] is within the bound, yields records and is followed by
    another page according to the detector. *)
Definition page_goes_on (web : portal) (search_data : gmap string form_value)
    (max_pages : option Z) (n : Z) : bool :=
  negb (bound_reached max_pages n)
  && match page_antennas web search_data n with [] => false | _ :: _ => true end
  && page_has_next web search_data n.

(** Page [n] is fetched and no record is matched on it. *)
Definition page_is_empty (web : portal) (search_data : gmap string form_value)
    (n : Z) : Prop :=
  ∃ r, _make_search_request web (page_form search_data n) = Ok (Some r)
       ∧ _parse_results (tables (content r)) = Ok [].

(** The request for the page meets a transport error: the connection
    fails or the status is an HTTP error. *)
Definition transport_error (web : portal) (data : gmap string form_value) : Prop :=
  session_post web data = Raise RequestException
  ∨ ∃ r, session_post web data = Ok r ∧ (400 ≤ status_code r < 600)%Z.

(** Records of the [k] pages from page [p] on, in page order then row
    order, and the events of scraping them when each goes on. *)
Fixpoint antennas_of_pages (web : portal) (search_data : gmap string form_value)
    (p : Z) (k : nat) : list antenna :=
  match k with
  | O => []
  | S k' => page_antennas web search_data p
            ++ antennas_of_pages web search_data (p + 1) k'
  end.

Fixpoint events_of_pages (search_data : gmap string form_value)
    (p : Z) (k : nat) : list event :=
  match k with
  | O => []
  | S k' => EvPost (page_form search_data p) :: EvSleep
            :: events_of_pages search_data (p + 1) k'
  end.

(** The ways one pass through the loop body can go. *)
Inductive body_view (web : portal) (search_data : gmap string form_value)
    (max_pages : option Z) (st : loop_state) : step → Prop :=
| view_bound :
    bound_reached max_pages (page_num st) = true →
    body_view web search_data max_pages st (Break st)
| view_failed :
    bound_reached max_pages (page_num st) = false →
    _make_search_request web (page_form search_data (page_num st)) = Ok None →
    body_view web search_data max_pages st
      (Break (log_event (EvPost (page_form search_data (page_num st))) st))
| view_raised e :
    bound_reached max_pages (page_num st) = false →
    _make_search_request web (page_form search_data (page_num st)) = Raise e →
    e ≠ RequestException →
    body_view web search_data max_pages st
      (Propagate e (log_event (EvPost (page_form search_data (page_num st))) st))
| view_empty r :
    bound_reached max_pages (page_num st) = false →
    _make_search_request web (page_form search_data (page_num st)) = Ok (Some r) →
    _parse_results (tables (content r)) = Ok [] →
    body_view web search_data max_pages st
      (Break (log_event (EvPost (page_form search_data (page_num st))) st))
| view_detector_raised r a antennas :
    bound_reached max_pages (page_num st) = false →
    _make_search_request web (page_form search_data (page_num st)) = Ok (Some r) →
    _parse_results (tables (content r)) = Ok (a :: antennas) →
    _has_next_page (content r) (page_num st) = Raise ValueError →
    body_view web search_data max_pages st
      (Propagate ValueError
         (log_event (EvPost (page_form search_data (page_num st))) st))
| view_last r a antennas :
    bound_reached max_pages (page_num st) = false →
    _make_search_request web (page_form search_data (page_num st)) = Ok (Some r) →
    _parse_results (tables (content r)) = Ok (a :: antennas) →
    _has_next_page (content r) (page_num st) = Ok false →
    body_view web search_data max_pages st
      (Break (LoopState (page_num st) (all_antennas st ++ a :: antennas)
                (trace st ++ [EvPost (page_form search_data (page_num st))])))
| view_more r a antennas :
    bound_reached max_pages (page_num st) = false →
    _make_search_request web (page_form search_data (page_num st)) = Ok (Some r) →
    _parse_results (tables (content r)) = Ok (a :: antennas) →
    _has_next_page (content r) (page_num st) = Ok true →
    body_view web search_data max_pages st
      (Continue (LoopState (page_num st + 1) (all_antennas st ++ a :: antennas)
                   (trace st ++ [EvPost (page_form search_data (page_num st)); EvSleep]))).

(** The loop state after [k] further pages that each go on. *)
Definition advance (web : portal) (search_data : gmap string form_value)
    (st : loop_state) (k : nat) : loop_state :=
  LoopState (page_num st + Z.of_nat k)
    (all_antennas st ++ antennas_of_pages web search_data (page_num st) k)
    (trace st ++ events_of_pages search_data (page_num st) k).

Definition state_of_step (s : step) : loop_state :=
  match s with
  | Continue st | Break st | Propagate _ st => st
  end.

Definition outcome_of_step (s : step) : outcome :=
  match s with
  | Continue st => Running st
  | Break st => Returned st
  | Propagate e st => Raised e st
  end.

(** The request for page [n] fails, or the page has no matching record. *)
Definition page_yields_nothing (web : portal)
    (search_data : gmap string form_value) (n : Z) : Prop :=
  _make_search_request web (page_form search_data n) = Ok None
  ∨ page_is_empty web search_data n.

(** The form data with which [search_municipality] enters the paging
    loop, when it gets that far. *)
Definition prepared_search_data (lower : string → string) (web : portal)
    (municipality_name : string) : option (gmap string form_value) :=
  match get_municipality_options web 0 with
  | Ok municipality_options =>
      match _find_municipality_value lower municipality_name municipality_options with
      | Some municipality_value =>
          if nonempty municipality_value then
            match _prepare_search_data web 1 municipality_value with
            | Ok (Some search_data) =>
                if bool_decide (search_data = ∅) then None else Some search_data
            | _ => None
            end
          else None
      | None => None
      end
  | Raise _ => None
  end.

(** ** Sample pages and portals *)

(** A table with every required header but the municipality one. *)
Definition table_without_municipality : table :=
  [ [Cell Th "Κωδ. θέσης"; Cell Th "Εταιρία"; Cell Th "Διεύθυνση"];
    [Cell Td "1001"; Cell Td "ACME"; Cell Td "Οδός 1"] ].

(** The header row of a results table, and data rows for it. *)
Definition results_header : list cell :=
  [ Cell Th "Α/Α"; Cell Th "Κωδ. θέσης"; Cell Th "Κατηγορία";
    Cell Th "Εταιρία"; Cell Th "Διεύθυνση"; Cell Th "Δήμος" ].

Definition data_row (n code : string) : list cell :=
  [ Cell Td n; Cell Td code; Cell Td "Σταθμός βάσης";
    Cell Td "ACME"; Cell Td "Οδός 1"; Cell Td "Χαλκιδέων" ].

Definition short_row : list cell := [ Cell Td "1"; Cell Td "1001" ].

Definition record_of (code : string) : antenna :=
  Antenna "" code "Σταθμός βάσης" "ACME" "Οδός 1" "Χαλκιδέων".

(** A table with a valid header whose only data row is too short, and
    one with a full data row. *)
(** A header row in which two columns carry the company label. *)
Definition header_two_companies : list cell :=
  [ Cell Th "Εταιρία"; Cell Th "Κωδ. θέσης"; Cell Th "Εταιρία (νέα)" ].

Definition table_short : table := [ results_header; short_row ].
Definition table_full : table := [ results_header; data_row "1" "1001" ].

(** Result pages: a layout table, then the results table with the given
    data rows, and a pagination control or none. *)
Definition layout_table : table := [ [Cell Td "Αναζήτηση"] ].

Definition results_page (rows : list (list cell)) (control : option (list li)) : soup :=
  Soup [ layout_table; results_header :: rows ] control None [].

Definition page_link (n : string) : li :=
  Li "" [] [ATag n ("document.form.startPage.value='" +:+ n +:+ "';")].

Definition current_page_item (n : string) : li := Li "" ["active"] [ATag n ""].

Definition next_item : li := Li "Επόμενη σελίδα" [] [].

(** The search form: one municipality, one hidden field. *)
Definition search_page : soup :=
  Soup [] None (Some [OptionTag "" "Επιλέξτε"; OptionTag "12" "Χαλκιδέων"])
       [HiddenInput (Some "token") "abc"; HiddenInput None "x"].

Definition startPage_of (data : gmap string form_value) : option Z :=
  match data !! "startPage" with
  | Some (VInt n) => Some n
  | _ => None
  end.

(** Two pages of results, then a page without any. *)
Definition portal_two_pages : portal :=
  Portal (fun _ => Ok (Response 200 search_page))
    (fun data =>
       match startPage_of data with
       | Some 1%Z =>
           Ok (Response 200
                 (results_page [data_row "1" "1001"; data_row "2" "1002"]
                    (Some [current_page_item "1"; page_link "2"])))
       | Some 2%Z =>
           Ok (Response 200
                 (results_page [data_row "3" "1003"]
                    (Some [page_link "1"; current_page_item "2"; page_link "3"])))
       | _ => Ok (Response 200 (Soup [layout_table] None None []))
       end).

(** One page of results and no pagination control. *)
Definition portal_one_page : portal :=
  Portal (fun _ => Ok (Response 200 search_page))
    (fun data =>
       match startPage_of data with
       | Some 1%Z => Ok (Response 200 (results_page [data_row "1" "1001"] None))
       | _ => Ok (Response 200 (Soup [layout_table] None None []))
       end).

(** Every page has a record and an enabled "next" item. *)
Definition endless_page : soup :=
  results_page [data_row "1" "1001"] (Some [next_item]).

Definition portal_endless : portal :=
  Portal (fun _ => Ok (Response 200 search_page))
    (fun _ => Ok (Response 200 endless_page)).

(** The first page is served, the second meets a connection error, or
    a server error status. *)
Definition portal_failing (second : result response) : portal :=
  Portal (fun _ => Ok (Response 200 search_page))
    (fun data =>
       match startPage_of data with
       | Some 1%Z =>
           Ok (Response 200
                 (results_page [data_row "1" "1001"]
                    (Some [current_page_item "1"; page_link "2"])))
       | _ => second
       end).

(** An item whose second link, not its first, carries a later page
    number. *)
Definition item_two_links : li := Li "" [] [ATag "1" ""; ATag "5" ""].

(** A page of one record whose pagination control holds a link with the
    text of a superscript two, and a portal that serves it. *)
Definition superscript_item : li := Li "" [] [ATag "²" ""].

Definition page_superscript : soup :=
  results_page [data_row "1" "1001"] (Some [superscript_item]).

Definition portal_superscript : portal :=
  Portal (fun _ => Ok (Response 200 search_page))
    (fun _ => Ok (Response 200 page_superscript)).


(** ** Reading the code: rows, option lists and forms *)

(** The record a data row gives under a header map: each field read from
    its column, empty when the column is not there. *)
Definition row_record (header_map : gmap string nat) (cells : list cell) : antenna :=
  Antenna (default "" (field_text cells header_map "sequence"))
          (default "" (field_text cells header_map "position_code"))
          (default "" (field_text cells header_map "category"))
          (default "" (field_text cells header_map "company"))
          (default "" (field_text cells header_map "address"))
          (default "" (field_text cells header_map "municipality")).

(** The row has more [td] cells than [m]. *)
Definition wider_than (m : nat) (row : list cell) : bool :=
  bool_decide (m < length (find_all_td row))%nat.

(** Two header rows with the same cells in another order. *)
Definition results_header_shuffled : list cell :=
  [ Cell Th "Δήμος"; Cell Th "Διεύθυνση"; Cell Th "Α/Α";
    Cell Th "Εταιρία"; Cell Th "Κατηγορία"; Cell Th "Κωδ. θέσης" ].

(** A data row whose first two cells are header cells. *)
Definition row_with_th : list cell :=
  [ Cell Th "1"; Cell Th "1001"; Cell Td "Σταθμός βάσης";
    Cell Td "ACME"; Cell Td "Οδός 1"; Cell Td "Χαλκιδέων" ].

(** The test of [_find_municipality_value]: one lower-cased name contains
    the other. *)
Definition name_matches (lower : string → string) (query name : string) : bool :=
  contains (lower query) (lower name) || contains (lower name) (lower query).

(** An option the options loop keeps: its value and its text are not
    empty. *)
Definition option_kept (o : option_tag) : bool :=
  nonempty (option_value o) && nonempty (option_text o).

(** The value of the last hidden input named [key], for a name that is
    not empty. *)
Definition hidden_named (key : string) (h : hidden_input) : bool :=
  bool_decide (input_name h = Some key) && nonempty key.

Definition last_hidden_value (key : string) (inputs : list hidden_input)
    : option string :=
  input_value <$> last (List.filter (hidden_named key) inputs).

(** A search page whose options repeat a name and whose hidden fields
    repeat one and shadow a fixed field. *)
Definition search_page_repeats : soup :=
  Soup [] None
    (Some [OptionTag "" "Επιλέξτε"; OptionTag "7" "Αθηναίων"; OptionTag "12" "Χαλκιδέων";
           OptionTag "8" "Αθηναίων"; OptionTag "9" ""])
    [HiddenInput (Some "token") "abc"; HiddenInput (Some "municipality") "99";
     HiddenInput (Some "") "y"; HiddenInput (Some "token") "def"].

Definition portal_repeats : portal :=
  Portal (fun _ => Ok (Response 200 search_page_repeats))
    (fun _ => Raise RequestException).

(** A portal whose search page cannot be fetched a second time. *)
Definition portal_form_fails : portal :=
  Portal (fun k => match k with
                   | O => Ok (Response 200 search_page)
                   | S _ => Ok (Response 500 search_page)
                   end)
    (fun _ => Ok (Response 200 endless_page)).

(** The six field names of a record. *)
Definition field_names : list string :=
  ["sequence"; "position_code"; "category"; "company"; "address"; "municipality"].

(** * Properties *)

(** ** Sanity checks of the model *)

Example header_key_position_code : header_key "Κωδ. θέσης" = Some "position_code".
Proof. vm_compute. reflexivity. Qed.

Example header_key_sequence : header_key "Κωδ. Θέσης" = Some "sequence".
Proof. vm_compute. reflexivity. Qed.

Example header_key_none : header_key "Α/Α" = None.
Proof. vm_compute. reflexivity. Qed.

Example results_header_map :
  _map_table_headers results_header !! "position_code" = Some 1
  ∧ _map_table_headers results_header !! "category" = Some 2
  ∧ _map_table_headers results_header !! "company" = Some 3
  ∧ _map_table_headers results_header !! "address" = Some 4
  ∧ _map_table_headers results_header !! "municipality" = Some 5
  ∧ _map_table_headers results_header !! "sequence" = None.
Proof. vm_compute. done. Qed.

(** ** Header Mapper *)


(** Where an entry of the header map comes from: the last cell of the row
    whose key it is, or the dictionary the loop started with. *)
Lemma map_headers_from_lookup cells : ∀ i (m : gmap string nat) k v,
  map_headers_from i cells m !! k = Some v ↔
    (∃ j c, cells !! j = Some c ∧ header_key (get_text c) = Some k ∧ v = i + j
            ∧ ∀ j' c', j < j' → cells !! j' = Some c' →
                       header_key (get_text c') ≠ Some k)
    ∨ (m !! k = Some v
       ∧ ∀ j c, cells !! j = Some c → header_key (get_text c) ≠ Some k).
Proof.
  induction cells as [|c cells IH]; intros i m k v; simpl.
  - split.
    + intros Hm. right. split; [done|]. intros j c Hj. by rewrite lookup_nil in Hj.
    + intros [(j & c & Hj & _)|[Hm _]]; [by rewrite lookup_nil in Hj | done].
  - rewrite IH. split.
    + intros [(j & c' & Hj & Hk & -> & Hlast)|[Hm Hnone]].
      * left. exists (S j), c'. split_and!; [done|done|lia|].
        intros [|j'] c'' Hlt Hj'; [lia|]. simpl in Hj'.
        apply (Hlast j' c''); [lia|done].
      * destruct (header_key (get_text c)) as [k0|] eqn:Hc.
        -- destruct (decide (k0 = k)) as [->|Hne].
           ++ rewrite lookup_insert_eq in Hm. injection Hm as <-.
              left. exists 0, c. split_and!; [done|done|lia|].
              intros [|j'] c'' Hlt Hj'; [lia|]. simpl in Hj'. by eapply Hnone.
           ++ rewrite lookup_insert_ne in Hm by done.
              right. split; [done|].
              intros [|j] c' Hj; simpl in Hj.
              ** injection Hj as <-. rewrite Hc. congruence.
              ** by eapply Hnone.
        -- right. split; [done|].
           intros [|j] c' Hj; simpl in Hj.
           ++ injection Hj as <-. by rewrite Hc.
           ++ by eapply Hnone.
    + intros [(j & c' & Hj & Hk & -> & Hlast)|[Hm Hnone]].
      * destruct j as [|j]; simpl in Hj.
        -- injection Hj as <-. right. rewrite Hk, lookup_insert_eq.
           split; [f_equal; lia|].
           intros j c' Hj. apply (Hlast (S j) c'); [lia|done].
        -- left. exists j, c'. split_and!; [done|done|lia|].
           intros j' c'' Hlt Hj'. apply (Hlast (S j') c''); [lia|done].
      * right. split.
        -- pose proof (Hnone 0 c eq_refl) as Hc.
           destruct (header_key (get_text c)) as [k0|]; [|done].
           rewrite lookup_insert_ne; [done|congruence].
        -- intros j c' Hj. apply (Hnone (S j) c'). done.
Qed.

Lemma map_table_headers_lookup (header_row : list cell) k i :
  _map_table_headers header_row !! k = Some i ↔
    ∃ c, header_row !! i = Some c ∧ header_key (get_text c) = Some k
         ∧ ∀ j c', i < j → header_row !! j = Some c' →
                   header_key (get_text c') ≠ Some k.
Proof.
  unfold _map_table_headers, find_all_th_td. rewrite map_headers_from_lookup. split.
  - intros [(j & c & Hj & Hk & -> & Hlast)|[Hm _]].
    + exists c. done.
    + by rewrite lookup_empty in Hm.
  - intros (c & Hi & Hk & Hlast). left. exists i, c. done.
Qed.




Lemma map_headers_from_keeps cells : ∀ i (m : gmap string nat) k,
  is_Some (m !! k) → is_Some (map_headers_from i cells m !! k).
Proof.
  induction cells as [|c cells IH]; intros i m k Hm; simpl; [done|].
  apply IH. destruct (header_key (get_text c)) as [k0|]; [|done].
  destruct (decide (k0 = k)) as [->|Hne].
  - rewrite lookup_insert_eq. eauto.
  - by rewrite lookup_insert_ne.
Qed.

Lemma map_headers_from_finds cells : ∀ i (m : gmap string nat) k j c,
  cells !! j = Some c → header_key (get_text c) = Some k →
  is_Some (map_headers_from i cells m !! k).
Proof.
  induction cells as [|c0 cells IH]; intros i m k j c Hj Hc; simpl.
  - by rewrite lookup_nil in Hj.
  - destruct j as [|j]; simpl in Hj.
    + injection Hj as ->. rewrite Hc. apply map_headers_from_keeps.
      rewrite lookup_insert_eq. eauto.
    + by eapply IH.
Qed.



Example header_two_companies_map :
  _map_table_headers header_two_companies !! "company" = Some 2.
Proof. vm_compute. reflexivity. Qed.

(** ** Validity of a header map *)

Lemma validate_header_map_iff (header_map : gmap string nat) :
  _validate_header_map header_map = true ↔
    is_Some (header_map !! "position_code") ∧ is_Some (header_map !! "company")
    ∧ is_Some (header_map !! "address") ∧ is_Some (header_map !! "municipality").
Proof.
  unfold _validate_header_map, required_headers. simpl.
  destruct (header_map !! "position_code") as [a|],
    (header_map !! "company") as [b|], (header_map !! "address") as [c|],
    (header_map !! "municipality") as [d|];
    repeat case_bool_decide; simplify_eq; simpl;
    (split;
     [ intros ?; first [done | split_and!; eauto]
     | intros ([? ?] & [? ?] & [? ?] & [? ?]); done ]).
Qed.

Lemma parse_results_skips_empty (t : table) (rest : list table) :
  _parse_table_results t = Ok [] →
  _parse_results (t :: rest) = _parse_results rest.
Proof. intros Ht. simpl. by rewrite Ht. Qed.

(** C3. A header map is valid exactly when position_code, company,
    address and municipality are all present; adding or removing sequence
    or category does not change validity; and a table whose header map is
    invalid yields no record and is passed over by the Table Locator. *)
Theorem header_map_validity (header_map : gmap string nat) :
  (_validate_header_map header_map = true ↔
     is_Some (header_map !! "position_code") ∧ is_Some (header_map !! "company")
     ∧ is_Some (header_map !! "address") ∧ is_Some (header_map !! "municipality"))
  ∧ (∀ i, _validate_header_map (<["sequence" := i]> header_map)
          = _validate_header_map header_map
        ∧ _validate_header_map (<["category" := i]> header_map)
          = _validate_header_map header_map)
  ∧ _validate_header_map (delete "sequence" header_map)
    = _validate_header_map header_map
  ∧ _validate_header_map (delete "category" header_map)
    = _validate_header_map header_map
  ∧ (∀ header_row data_rows rest,
       _map_table_headers header_row = header_map →
       _validate_header_map header_map = false →
       _parse_table_results (header_row :: data_rows) = Ok []
       ∧ _parse_results ((header_row :: data_rows) :: rest) = _parse_results rest).
Proof.
  split_and!.
  - apply validate_header_map_iff.
  - intros i. unfold _validate_header_map, required_headers. simpl.
    by rewrite !lookup_insert_ne.
  - unfold _validate_header_map, required_headers. simpl.
    by rewrite !lookup_delete_ne.
  - unfold _validate_header_map, required_headers. simpl.
    by rewrite !lookup_delete_ne.
  - intros header_row data_rows rest <- Hinvalid.
    assert (Ht : _parse_table_results (header_row :: data_rows) = Ok []).
    { unfold _parse_table_results. destruct data_rows; [done|]. by rewrite Hinvalid. }
    split; [done|]. by apply parse_results_skips_empty.
Qed.

Lemma header_map_validity_witness :
  _parse_table_results table_without_municipality = Ok []
  ∧ _parse_results [table_without_municipality] = Ok [].
Proof.
  pose proof (header_map_validity
    (_map_table_headers [Cell Th "Κωδ. θέσης"; Cell Th "Εταιρία"; Cell Th "Διεύθυνση"]))
    as (_ & _ & _ & _ & H).
  apply (H _ [[Cell Td "1001"; Cell Td "ACME"; Cell Td "Οδός 1"]] []).
  - reflexivity.
  - vm_compute. reflexivity.
Defined.

(** ** Row Extractor *)

Lemma max_values_bounds (header_map : gmap string nat) (k0 : string) :
  is_Some (header_map !! k0) →
  ∃ m : nat, max_values header_map = Ok m
       ∧ (∀ (k : string) (i : nat), header_map !! k = Some i → (i ≤ m)%nat)
       ∧ (∃ k : string, header_map !! k = Some m).
Proof.
  intros [i0 Hi0]. unfold max_values.
  assert (Hin : ∀ (k : string) (i : nat),
            header_map !! k = Some i → i ∈ dict_values header_map).
  { intros k i Hk. unfold dict_values. apply list_elem_of_fmap.
    exists (k, i). split; [done|]. by apply elem_of_map_to_list. }
  destruct (dict_values header_map) as [|v vs] eqn:Hvs.
  - apply Hin in Hi0. by apply elem_of_nil in Hi0.
  - exists (max_list (v :: vs)). split_and!; [done| |].
    + intros k i Hk. apply max_list_elem_of_le. by eapply Hin.
    + assert (Hmax : max_list (v :: vs) ∈ dict_values header_map).
      { rewrite Hvs. by apply max_list_elem_of. }
      unfold dict_values in Hmax. apply list_elem_of_fmap in Hmax as ([k i] & -> & Hki).
      exists k. by apply elem_of_map_to_list.
Qed.

Lemma required_cell_ok (cells : list cell) (header_map : gmap string nat)
    (k : string) (i : nat) :
  header_map !! k = Some i → (i < length cells)%nat →
  ∃ c, cells !! i = Some c ∧ required_cell cells header_map k = Ok (get_text c).
Proof.
  intros Hk Hlt. destruct (lookup_lt_is_Some_2 cells i Hlt) as [c Hc].
  exists c. split; [done|].
  unfold required_cell, dict_getitem, list_getitem. rewrite Hk. simpl. by rewrite Hc.
Qed.

Lemma optional_cell_ok (cells : list cell) (header_map : gmap string nat)
    (k : string) (m : nat) :
  (∀ i : nat, header_map !! k = Some i → (i ≤ m)%nat) → m < length cells →
  ∃ s, optional_cell cells header_map k = Ok s
       ∧ match header_map !! k with
         | Some i => ∃ c, cells !! i = Some c ∧ s = get_text c
         | None => s = ""
         end.
Proof.
  intros Hle Hlt. unfold optional_cell, dict_in, dict_get, list_getitem.
  destruct (header_map !! k) as [i|] eqn:Hk; simpl.
  - destruct (lookup_lt_is_Some_2 cells i) as [c Hc]; [specialize (Hle i eq_refl); lia|].
    rewrite Hc. simpl. eauto.
  - eauto.
Qed.

Lemma optional_cell_field_text (cells : list cell) (header_map : gmap string nat)
    (k : string) (m : nat) :
  (∀ i : nat, header_map !! k = Some i → (i ≤ m)%nat) → (m < length cells)%nat →
  optional_cell cells header_map k = Ok (default "" (field_text cells header_map k)).
Proof.
  intros Hle Hlt. destruct (optional_cell_ok cells header_map k m Hle Hlt) as (s & -> & Hs).
  unfold field_text. destruct (header_map !! k) as [i|]; simpl.
  - destruct Hs as (c & -> & ->). done.
  - by subst.
Qed.

Lemma required_cell_field_text (cells : list cell) (header_map : gmap string nat)
    (k : string) (m : nat) :
  is_Some (header_map !! k) →
  (∀ i : nat, header_map !! k = Some i → (i ≤ m)%nat) → (m < length cells)%nat →
  ∃ s, required_cell cells header_map k = Ok s
       ∧ field_text cells header_map k = Some s.
Proof.
  intros [i Hi] Hle Hlt.
  destruct (required_cell_ok cells header_map k i Hi) as (c & Hc & ->).
  { specialize (Hle i Hi). lia. }
  exists (get_text c). split; [done|]. unfold field_text. rewrite Hi. simpl. by rewrite Hc.
Qed.

(** With a valid header map and a row longer than every column index in
    it, extraction raises nothing and reads each field from its column. *)
Lemma extract_antenna_data_ok (cells : list cell) (header_map : gmap string nat)
    (m : nat) :
  _validate_header_map header_map = true →
  (∀ (k : string) (i : nat), header_map !! k = Some i → (i ≤ m)%nat) →
  (m < length cells)%nat →
  ∃ a, _extract_antenna_data cells header_map = Ok a
       ∧ sequence a = default "" (field_text cells header_map "sequence")
       ∧ field_text cells header_map "position_code" = Some (position_code a)
       ∧ category a = default "" (field_text cells header_map "category")
       ∧ field_text cells header_map "company" = Some (company a)
       ∧ field_text cells header_map "address" = Some (address a)
       ∧ field_text cells header_map "municipality" = Some (municipality a).
Proof.
  intros (Hpos & Hcom & Hadr & Hmun)%validate_header_map_iff Hle Hlt.
  destruct (required_cell_field_text cells header_map "position_code" m)
    as (pos & Epos & Fpos); [done|eauto|done|].
  destruct (required_cell_field_text cells header_map "company" m)
    as (com & Ecom & Fcom); [done|eauto|done|].
  destruct (required_cell_field_text cells header_map "address" m)
    as (adr & Eadr & Fadr); [done|eauto|done|].
  destruct (required_cell_field_text cells header_map "municipality" m)
    as (mun & Emun & Fmun); [done|eauto|done|].
  pose proof (optional_cell_field_text cells header_map "sequence" m
                ltac:(eauto) Hlt) as Eseq.
  pose proof (optional_cell_field_text cells header_map "category" m
                ltac:(eauto) Hlt) as Ecat.
  eexists. unfold _extract_antenna_data.
  rewrite Eseq, Epos, Ecat, Ecom, Eadr, Emun. simpl.
  split; [reflexivity|]. simpl. done.
Qed.

(** C4. With a valid header map the largest column index [m] it holds is
    defined; a row with at most [m] cells is passed over without a record,
    and a longer row is extracted with every cell access inside the row:
    extraction raises no [IndexError] and yields the record that heads
    the result. *)
Theorem row_extraction_in_bounds (header_map : gmap string nat)
    (row : list cell) (rest : list (list cell)) :
  _validate_header_map header_map = true →
  ∃ m : nat,
    max_values header_map = Ok m
    ∧ (∃ k : string, header_map !! k = Some m)
    ∧ (∀ (k : string) (i : nat), header_map !! k = Some i → (i ≤ m)%nat)
    ∧ ((length (find_all_td row) ≤ m)%nat →
         parse_data_rows header_map (row :: rest) = parse_data_rows header_map rest)
    ∧ ((m < length (find_all_td row))%nat →
         (∀ (k : string) (i : nat), header_map !! k = Some i →
            is_Some (find_all_td row !! i))
         ∧ ∃ a, _extract_antenna_data (find_all_td row) header_map = Ok a
                ∧ parse_data_rows header_map (row :: rest)
                  = (antennas ← parse_data_rows header_map rest; Ok (a :: antennas))).
Proof.
  intros Hvalid.
  pose proof Hvalid as (Hpos & _)%validate_header_map_iff.
  destruct (max_values_bounds header_map "position_code" Hpos) as (m & Hm & Hle & Hmax).
  exists m. split_and!; [done|done|done| |].
  - intros Hshort. simpl. rewrite Hm. simpl.
    rewrite bool_decide_eq_false_2 by lia. done.
  - intros Hlong. split.
    + intros k i Hk. apply lookup_lt_is_Some_2. specialize (Hle k i Hk). lia.
    + destruct (extract_antenna_data_ok (find_all_td row) header_map m Hvalid Hle Hlong)
        as (a & Ha & _).
      exists a. split; [done|]. simpl. rewrite Hm. simpl.
      rewrite bool_decide_eq_true_2 by lia. by rewrite Ha.
Qed.

Lemma row_extraction_in_bounds_witness :
  ∃ m : nat,
    max_values (_map_table_headers results_header) = Ok m
    ∧ (∃ k : string, _map_table_headers results_header !! k = Some m)
    ∧ (∀ (k : string) (i : nat),
         _map_table_headers results_header !! k = Some i → (i ≤ m)%nat)
    ∧ ((length (find_all_td short_row) ≤ m)%nat →
         parse_data_rows (_map_table_headers results_header) [short_row]
         = parse_data_rows (_map_table_headers results_header) [])
    ∧ ((m < length (find_all_td short_row))%nat →
         (∀ (k : string) (i : nat),
            _map_table_headers results_header !! k = Some i →
            is_Some (find_all_td short_row !! i))
         ∧ ∃ a, _extract_antenna_data (find_all_td short_row)
                  (_map_table_headers results_header) = Ok a
                ∧ parse_data_rows (_map_table_headers results_header) [short_row]
                  = (antennas ← parse_data_rows (_map_table_headers results_header) [];
                     Ok (a :: antennas))).
Proof.
  apply (row_extraction_in_bounds (_map_table_headers results_header) short_row []).
  vm_compute. reflexivity.
Defined.

Example short_row_skipped :
  _parse_table_results table_short = Ok []
  ∧ _parse_table_results table_full = Ok [record_of "1001"].
Proof. vm_compute. done. Qed.

(** ** Table Locator *)

Lemma parse_data_rows_total (header_map : gmap string nat) (rows : list (list cell)) :
  _validate_header_map header_map = true →
  ∃ antennas, parse_data_rows header_map rows = Ok antennas.
Proof.
  intros Hvalid. induction rows as [|row rows [antennas IH]]; [by exists []|].
  pose proof Hvalid as (Hpos & _)%validate_header_map_iff.
  destruct (max_values_bounds header_map "position_code" Hpos) as (m & Hm & Hle & _).
  simpl. rewrite Hm. simpl. case_bool_decide as Hlong; [|eauto].
  destruct (extract_antenna_data_ok (find_all_td row) header_map m Hvalid Hle Hlong)
    as (a & -> & _).
  simpl. rewrite IH. simpl. eauto.
Qed.

Lemma parse_table_results_total (t : table) :
  ∃ antennas, _parse_table_results t = Ok antennas.
Proof.
  destruct t as [|header_row [|row rows]]; [by exists []|by exists []|].
  unfold _parse_table_results.
  destruct (_validate_header_map (_map_table_headers header_row)) eqn:Hvalid.
  - by apply parse_data_rows_total.
  - by exists [].
Qed.

Lemma parse_table_results_valid (t : table) a antennas :
  _parse_table_results t = Ok (a :: antennas) → has_valid_header t = true.
Proof.
  destruct t as [|header_row [|row rows]]; [done|done|].
  unfold _parse_table_results, has_valid_header.
  by destruct (_validate_header_map (_map_table_headers header_row)).
Qed.

(** What the loop over the tables returns: the list of the first table
    that yields at least one record. *)
Lemma parse_results_first_nonempty (tables : list table) :
  (Forall (λ t, _parse_table_results t = Ok []) tables
   ∧ _parse_results tables = Ok [])
  ∨ (∃ before t after a antennas,
       tables = (before ++ t :: after)%list
       ∧ Forall (λ t', _parse_table_results t' = Ok []) before
       ∧ _parse_table_results t = Ok (a :: antennas)
       ∧ _parse_results tables = Ok (a :: antennas)).
Proof.
  induction tables as [|t tables IH].
  - left. by split.
  - destruct (parse_table_results_total t) as [[|a antennas] Ht].
    + rewrite (parse_results_skips_empty t tables Ht).
      destruct IH as [[Hall Hres]|(before & t' & after & a & antennas & -> & Hbefore & Ht' & Hres)].
      * left. split; [by constructor|done].
      * right. exists (t :: before), t', after, a, antennas.
        split_and!; [done|by constructor|done|done].
    + right. exists [], t, tables, a, antennas.
      split_and!; [done|by constructor|done|]. simpl. by rewrite Ht.
Qed.

Lemma parse_results_total (tables : list table) :
  ∃ antennas, _parse_results tables = Ok antennas.
Proof.
  destruct (parse_results_first_nonempty tables)
    as [[_ ->]|(_ & _ & _ & a & antennas & _ & _ & _ & ->)]; eauto.
Qed.

(** C5, as the code has it. The Table Locator returns the records of the
    first table, in document order, that yields at least one record; that
    table has a valid header map, every table before it yields nothing,
    and the tables after it are not looked at. If no table yields a
    record the result is empty. *)
Theorem table_locator_first_nonempty (tables : list table) :
  (Forall (λ t, _parse_table_results t = Ok []) tables
   ∧ _parse_results tables = Ok [])
  ∨ (∃ before t after a antennas,
       tables = (before ++ t :: after)%list
       ∧ Forall (λ t', _parse_table_results t' = Ok []) before
       ∧ has_valid_header t = true
       ∧ _parse_table_results t = Ok (a :: antennas)
       ∧ (∀ after', _parse_results (before ++ t :: after')%list = Ok (a :: antennas))).
Proof.
  destruct (parse_results_first_nonempty tables)
    as [?|(before & t & after & a & antennas & -> & Hbefore & Ht & Hres)]; [by left|].
  right. exists before, t, after, a, antennas.
  split_and!; [done|done|by eapply parse_table_results_valid|done|].
  intros after'. clear Hres. induction Hbefore as [|t' before Ht' _ IH]; simpl.
  - by rewrite Ht.
  - by rewrite Ht'.
Qed.

(** C5, as the specification words it, fails: the first table has a valid
    header map and yields no record, yet the records returned are those of
    the second table. *)
Lemma table_locator_skips_valid_empty_table :
  has_valid_header table_short = true
  ∧ _parse_table_results table_short = Ok []
  ∧ spec_parse_results [table_short; table_full] = Ok []
  ∧ _parse_results [table_short; table_full] = Ok [record_of "1001"]
  ∧ ¬ (∀ tables, _parse_results tables = spec_parse_results tables).
Proof.
  split_and!; try (vm_compute; reflexivity).
  intros Hspec. specialize (Hspec [table_short; table_full]).
  vm_compute in Hspec. done.
Qed.

(** ** Pagination Detector: digits and numbers *)

Lemma decimal_values_Some (text : list N) : ∀ ds,
  decimal_values text = Some ds
  ↔ Forall2 (fun c d => decimal_value py c = Some d) text ds.
Proof.
  induction text as [|c text IH]; intros ds; simpl.
  - split.
    + intros [= <-]. constructor.
    + intros H. by inversion H.
  - destruct (decimal_value py c) as [d|] eqn:Hc.
    + destruct (decimal_values text) as [ds'|] eqn:Hds.
      * split.
        -- intros [= <-]. constructor; [done|]. by apply IH.
        -- intros H. inversion H as [|? d' ? ds'' Hd Hrest]; subst.
           apply IH in Hrest. congruence.
      * split; [done|]. intros H.
        inversion H as [|? d' ? ds'' Hd Hrest]; subst.
        apply IH in Hrest. done.
    + split; [done|]. intros H. inversion H; subst. congruence.
Qed.

(** [int] returns exactly the numbers. *)
Lemma int_Ok (text : list N) (v : Z) : int text = Ok v ↔ is_number text v.
Proof.
  unfold int, is_number. destruct text as [|c text].
  - split; [done|]. by intros (ds & Hne & _).
  - destruct (decimal_values (c :: text)) as [ds|] eqn:Hds.
    + destruct (within_int_limit py ds) eqn:Hl.
      * split.
        -- intros [= <-]. exists ds. split_and!; [done| |done|done].
           by apply decimal_values_Some.
        -- intros (ds' & _ & H2 & _ & ->). apply decimal_values_Some in H2.
           congruence.
      * split; [done|]. intros (ds' & _ & H2 & Hl' & _).
        apply decimal_values_Some in H2. congruence.
    + split; [done|]. intros (ds' & _ & H2 & _).
      apply decimal_values_Some in H2. congruence.
Qed.

Lemma int_cases (text : list N) :
  (∃ v, int text = Ok v) ∨ int text = Raise ValueError.
Proof.
  unfold int. destruct text as [|c text]; [by right|].
  destruct (decimal_values (c :: text)) as [ds|]; [|by right].
  destruct (within_int_limit py ds); [left; eauto|by right].
Qed.

Lemma int_Raise (text : list N) (e : exn) :
  int text = Raise e ↔ e = ValueError ∧ ∀ v, ¬ is_number text v.
Proof.
  split.
  - intros He. destruct (int_cases text) as [[v Hv]|Hv]; [congruence|].
    split; [congruence|]. intros v Hn%int_Ok. congruence.
  - intros [-> Hnone]. destruct (int_cases text) as [[v Hv]|Hv]; [|done].
    apply int_Ok in Hv. by destruct (Hnone v).
Qed.

Lemma is_number_unique (text : list N) (v w : Z) :
  is_number text v → is_number text w → v = w.
Proof. intros Hv%int_Ok Hw%int_Ok. congruence. Qed.

Lemma forallb_decimal_digit (text : list N) :
  Forall (fun c => is_decimal c = true) text → forallb is_digit text = true.
Proof.
  induction 1 as [|c text Hc _ IH]; simpl; [done|].
  unfold is_digit at 1. by rewrite Hc, IH.
Qed.

(** A number passes [isdigit]. *)
Lemma is_number_isdigit (text : list N) (v : Z) :
  is_number text v → isdigit text = true.
Proof.
  intros (ds & Hne & Hds & _). unfold isdigit.
  destruct text as [|c text]; [done|].
  apply forallb_decimal_digit.
  eapply Forall2_Forall_l; [exact Hds|].
  apply Forall_forall. intros d _ c' Hc'. unfold is_decimal. by rewrite Hc'.
Qed.

(** ** Pagination Detector: the pattern of the click action *)

Lemma take_decimals_spec (s : list N) :
  Forall (fun c => is_decimal c = true) (take_decimals s)
  ∧ ∃ rest, s = take_decimals s ++ rest
            ∧ match rest with
              | c :: _ => is_decimal c = false
              | [] => True
              end.
Proof.
  induction s as [|c s (IH & rest & Hs & Hrest)]; simpl.
  - split; [constructor|]. by exists [].
  - destruct (is_decimal c) eqn:Hc.
    + split; [by constructor|]. exists rest. split; [|done]. simpl. by f_equal.
    + split; [constructor|]. exists (c :: s). done.
Qed.

Lemma take_decimals_app (d rest : list N) :
  Forall (fun c => is_decimal c = true) d →
  match rest with
  | c :: _ => is_decimal c = false
  | [] => True
  end →
  take_decimals (d ++ rest) = d.
Proof.
  intros Hd Hrest. induction Hd as [|c d Hc _ IH]; simpl.
  - destruct rest as [|c rest]; [done|]. simpl. by rewrite Hrest.
  - by rewrite Hc, IH.
Qed.

Lemma digits_at_spec (r d : list N) : digits_at r = Some d ↔ decimal_run r d.
Proof.
  unfold digits_at, decimal_run. split.
  - destruct (take_decimals_spec r) as (Hall & rest & Hr & Hrest).
    destruct (take_decimals r) as [|c d'] eqn:Ht; [done|].
    intros [= <-]. split_and!; [done|done|]. by exists rest.
  - intros (Hne & Hall & rest & -> & Hrest).
    rewrite take_decimals_app by done. by destruct d.
Qed.

Lemma decimal_run_unique (r d d' : list N) :
  decimal_run r d → decimal_run r d' → d = d'.
Proof. intros H%digits_at_spec H'%digits_at_spec. congruence. Qed.

Lemma strip_prefix_spec (p : list N) : ∀ s r,
  strip_prefix p s = Some r ↔ s = p ++ r.
Proof.
  induction p as [|a p IH]; intros s r; simpl.
  - split; [by intros [= ->]|by intros ->].
  - destruct s as [|b s].
    + split; [done|]. intros H. discriminate H.
    + destruct (N.eqb_spec a b) as [->|Hne].
      * rewrite IH. split; [by intros ->|by intros [= ->]].
      * split; [done|]. intros [= ? ?]. done.
Qed.

(** The anchored match is the assignment that starts the text. *)
Lemma match_startPage_spec (s d : list N) :
  match_startPage s = Some d ↔ assignment_at s d.
Proof.
  unfold match_startPage, assignment_at.
  destruct (strip_prefix startPage_label s) as [r|] eqn:Hs.
  - apply strip_prefix_spec in Hs as ->.
    assert (Hr : ∀ Q : list N → Prop,
              (∃ r', startPage_label ++ r = startPage_label ++ r' ∧ Q r') ↔ Q r).
    { intros Q. split.
      - by intros (r' & <-%app_inv_head & HQ).
      - intros HQ. by exists r. }
    rewrite Hr. clear Hr.
    destruct r as [|q r1].
    + split; [done|]. intros [(r1 & Hr1 & _)|[_ (Hne & _ & rest & Hd & _)]]; [done|].
      symmetry in Hd. apply app_eq_nil in Hd as [-> _]. done.
    + destruct (N.eqb_spec q apostrophe) as [->|Hq].
      * destruct (digits_at r1) as [d1|] eqn:H1.
        -- apply digits_at_spec in H1. split.
           ++ intros [= <-]. left. by exists r1.
           ++ intros [(r1' & [= <-] & Hrun)|[Hnone _]].
              ** f_equal. by eapply decimal_run_unique.
              ** by destruct (Hnone r1 d1).
        -- rewrite digits_at_spec. split.
           ++ intros Hrun. right. split; [|done].
              intros r1' d' [= <-] Hrun'%digits_at_spec. congruence.
           ++ intros [(r1' & [= <-] & Hrun%digits_at_spec)|[_ Hrun]];
                [congruence|done].
      * rewrite digits_at_spec. split.
        -- intros Hrun. right. split; [|done]. intros r1' d' [= ? ?]. done.
        -- intros [(r1' & [= ? ?] & _)|[_ Hrun]]; done.
  - split; [done|]. intros (r & -> & _).
    assert (strip_prefix startPage_label (startPage_label ++ r) = Some r) as Hs'
      by by apply strip_prefix_spec.
    congruence.
Qed.

Lemma re_search_startPage_unfold (s : list N) :
  re_search_startPage s
  = match match_startPage s with
    | Some d => Some d
    | None =>
        match s with
        | [] => None
        | _ :: rest => re_search_startPage rest
        end
    end.
Proof. by destruct s. Qed.

(** [re.search] finds the number of the leftmost assignment. *)
Lemma re_search_startPage_spec (s : list N) : ∀ d,
  re_search_startPage s = Some d ↔ startPage_match s d.
Proof.
  induction s as [|c s IH]; intros d; rewrite re_search_startPage_unfold.
  - destruct (match_startPage []) as [d'|] eqn:Hm.
    + split.
      * intros [= <-]. exists [], []. split_and!; [done|by apply match_startPage_spec|].
        intros pre' rest' d2 _ Hlt. simpl in Hlt. lia.
      * intros (pre & rest & Hs & Ha & _). symmetry in Hs.
        apply app_eq_nil in Hs as [-> ->]. apply match_startPage_spec in Ha. congruence.
    + split; [done|]. intros (pre & rest & Hs & Ha & _). symmetry in Hs.
      apply app_eq_nil in Hs as [-> ->]. apply match_startPage_spec in Ha. congruence.
  - destruct (match_startPage (c :: s)) as [d'|] eqn:Hm.
    + split.
      * intros [= <-]. exists [], (c :: s).
        split_and!; [done|by apply match_startPage_spec|].
        intros pre' rest' d2 _ Hlt. simpl in Hlt. lia.
      * intros (pre & rest & Hs & Ha & Hleft). destruct pre as [|c' pre].
        -- simpl in Hs. subst rest. apply match_startPage_spec in Ha. congruence.
        -- apply match_startPage_spec in Hm.
           destruct (Hleft [] (c :: s) d'); [done|simpl; lia|done].
    + rewrite IH. split.
      * intros (pre & rest & -> & Ha & Hleft). exists (c :: pre), rest.
        split_and!; [done|done|].
        intros pre' rest' d' Hs Hlt Ha'. destruct pre' as [|c' pre'].
        -- simpl in Hs. subst rest'. apply match_startPage_spec in Ha'. congruence.
        -- injection Hs as <- Hs. apply (Hleft pre' rest' d'); [done|simpl in Hlt; lia|done].
      * intros (pre & rest & Hs & Ha & Hleft). destruct pre as [|c' pre].
        -- simpl in Hs. subst rest. apply match_startPage_spec in Ha. congruence.
        -- injection Hs as <- ->. exists pre, rest. split_and!; [done|done|].
           intros pre' rest' d' Hs Hlt. apply (Hleft (c :: pre') rest' d').
           ++ simpl. by f_equal.
           ++ simpl. lia.
Qed.

Lemma startPage_match_unique (s d d' : list N) :
  startPage_match s d → startPage_match s d' → d = d'.
Proof. intros H%re_search_startPage_spec H'%re_search_startPage_spec. congruence. Qed.

Lemma re_search_startPage_None (s : list N) :
  re_search_startPage s = None ↔ ∀ d, ¬ startPage_match s d.
Proof.
  split.
  - intros Hn d Hd%re_search_startPage_spec. congruence.
  - intros Hnone. destruct (re_search_startPage s) as [d|] eqn:Hre; [|done].
    apply re_search_startPage_spec in Hre. by destruct (Hnone d).
Qed.

(** ** Pagination Detector: one item *)

Lemma signal_next_test (item : li) :
  (contains "Επόμενη" (title item) || contains "Next" (title item))
  && negb (bool_decide ("disabled" ∈ classes item)) = true
  ↔ signal_next item.
Proof.
  unfold signal_next.
  rewrite andb_true_iff, orb_true_iff, negb_true_iff, bool_decide_eq_false. done.
Qed.

(** The test on the link's text: it is a number above the page, or
    [int] rejects it, or it is no number above the page. *)
Lemma text_test_cases (text : list N) (n : Z) (r : result bool) :
  r = (if isdigit text then v ← int text; Ok (bool_decide (v > n)%Z) else Ok false) →
  (r = Ok true ∧ ∃ v, is_number text v ∧ (v > n)%Z)
  ∨ (r = Raise ValueError ∧ isdigit text = true ∧ ∀ v, ¬ is_number text v)
  ∨ (r = Ok false ∧ (∀ v, is_number text v → ¬ (v > n)%Z)
     ∧ (isdigit text = true → ∃ v, is_number text v)).
Proof.
  intros ->. destruct (isdigit text) eqn:Hd.
  - destruct (int_cases text) as [[v Hv]|Hv]; rewrite Hv; simpl.
    + apply int_Ok in Hv. case_bool_decide as Hgt.
      * left. eauto.
      * right. right. split_and!; [done| |eauto].
        intros w Hw. by rewrite (is_number_unique _ _ _ Hw Hv).
    + right. left. apply int_Raise in Hv as [_ Hv]. done.
  - right. right. split_and!; [done| |done].
    intros v Hv%is_number_isdigit. congruence.
Qed.

(** The test on the link's click action, before the scan goes on with
    [next]. *)
Lemma onclick_test_cases (s : list N) (n : Z) (next r : result bool) :
  r = match re_search_startPage s with
      | Some d =>
          v ← int d;
          if bool_decide (v > n)%Z then Ok true else next
      | None => next
      end →
  (r = Ok true ∧ ∃ d v, startPage_match s d ∧ is_number d v ∧ (v > n)%Z)
  ∨ (r = Raise ValueError ∧ ∃ d, startPage_match s d ∧ ∀ v, ¬ is_number d v)
  ∨ (r = next ∧ (∀ d v, startPage_match s d → is_number d v → ¬ (v > n)%Z)
     ∧ (∀ d, startPage_match s d → ∃ v, is_number d v)).
Proof.
  intros ->. destruct (re_search_startPage s) as [d|] eqn:Hre.
  - apply re_search_startPage_spec in Hre.
    destruct (int_cases d) as [[v Hv]|Hv]; rewrite Hv; simpl.
    + apply int_Ok in Hv. case_bool_decide as Hgt.
      * left. eauto 6.
      * right. right. split_and!; [done| |].
        -- intros d' w Hd' Hw. rewrite (startPage_match_unique _ _ _ Hd' Hre) in Hw.
           by rewrite (is_number_unique _ _ _ Hw Hv).
        -- intros d' Hd'. rewrite (startPage_match_unique _ _ _ Hd' Hre). eauto.
    + right. left. apply int_Raise in Hv as [_ Hv]. eauto.
  - right. right. split_and!; [done| |].
    + intros d v Hd%re_search_startPage_spec. congruence.
    + intros d Hd%re_search_startPage_spec. congruence.
Qed.

Lemma scan_pagination_items_unfold (item : li) (rest : list li) (n : Z) :
  scan_pagination_items (item :: rest) n
  = if (contains "Επόμενη" (title item) || contains "Next" (title item))
       && negb (bool_decide ("disabled" ∈ classes item))
    then Ok true
    else
      match find_a item with
      | Some a =>
          text_above ←
            (if isdigit (code_points (a_text a))
             then v ← int (code_points (a_text a)); Ok (bool_decide (v > n)%Z)
             else Ok false);
          if (text_above : bool) then Ok true
          else
            match re_search_startPage (code_points (onclick a)) with
            | Some d =>
                v ← int d;
                if bool_decide (v > n)%Z then Ok true
                else scan_pagination_items rest n
            | None => scan_pagination_items rest n
            end
      | None => scan_pagination_items rest n
      end.
Proof. reflexivity. Qed.

(** What one item does to the scan: it ends it with true, it lets it
    pass on, or it ends it with [ValueError]. *)
Lemma scan_pagination_items_cons (item : li) (rest : list li) (n : Z) :
  (shows_signal item n ∧ scan_pagination_items (item :: rest) n = Ok true)
  ∨ (quiet item n
     ∧ scan_pagination_items (item :: rest) n = scan_pagination_items rest n)
  ∨ (item_rejected item n
     ∧ scan_pagination_items (item :: rest) n = Raise ValueError).
Proof.
  rewrite scan_pagination_items_unfold.
  unfold shows_signal, quiet, item_rejected, signal_page_number, signal_onclick,
    text_rejected, assignment_rejected, link_number_above, link_assignment_above.
  destruct ((contains "Επόμενη" (title item) || contains "Next" (title item))
            && negb (bool_decide ("disabled" ∈ classes item))) eqn:Hnext.
  { apply signal_next_test in Hnext. left. split; [by left|done]. }
  assert (Hnonext : ¬ signal_next item).
  { intros H%signal_next_test. congruence. }
  destruct (find_a item) as [a|] eqn:Ha.
  2:{ right. left. split; [|done].
      split_and!; [done|by intros (? & [=] & _)..|by intros (? & ? & [=] & _)]. }
  destruct (text_test_cases (code_points (a_text a)) n _ eq_refl)
    as [[-> Hnum]|[[-> [Hd Hrej]]|[-> [Hbelow Hconv]]]]; simpl.
  { left. split; [|done]. right. left. eauto. }
  { right. right. split; [|done]. split; [done|]. left. eauto. }
  destruct (onclick_test_cases (code_points (onclick a)) n
              (scan_pagination_items rest n) _ eq_refl)
    as [[-> Hnum]|[[-> Hrej]|[-> [Hbelow' Hconv']]]].
  - left. split; [|done]. right. right. split; [|eauto].
    intros (a' & [= <-] & Hd & Hrej). destruct (Hconv Hd) as [v Hv].
    by destruct (Hrej v).
  - right. right. split; [|done]. split; [done|]. right. split.
    + intros (a' & [= <-] & v & Hv & Hgt). by destruct (Hbelow v).
    + destruct Hrej as (d & Hd & Hrej). eauto.
  - right. left. split; [|done]. split_and!; [done|..].
    + intros (a' & [= <-] & v & Hv & Hgt). by destruct (Hbelow v).
    + intros (a' & [= <-] & d & v & Hd & Hv & Hgt). by destruct (Hbelow' d v).
    + intros (a' & [= <-] & Hd & Hrej). destruct (Hconv Hd) as [v Hv].
      by destruct (Hrej v).
    + intros (a' & d & [= <-] & Hd & Hrej). destruct (Hconv' d Hd) as [v Hv].
      by destruct (Hrej v).
Qed.

Lemma quiet_not_shows_signal (item : li) (n : Z) :
  quiet item n → ¬ shows_signal item n.
Proof. intros (? & ? & ? & _) [?|[?|[_ ?]]]; done. Qed.

Lemma quiet_not_rejected (item : li) (n : Z) :
  quiet item n → ¬ item_rejected item n.
Proof. intros (_ & _ & _ & ? & ?) [_ [?|[_ ?]]]; done. Qed.

Lemma shows_signal_not_rejected (item : li) (n : Z) :
  shows_signal item n → ¬ item_rejected item n.
Proof.
  intros Hshows [Hnonext Hrej].
  destruct Hshows as [?|[Hnum|[Hok Hclick]]]; [done| |].
  - destruct Hrej as [(a' & Ha' & _ & Hrej)|[Hno _]]; [|done].
    destruct Hnum as (a & Ha & v & Hv & _). simplify_eq. by destruct (Hrej v).
  - destruct Hrej as [?|[_ (a' & d' & Ha' & Hd' & Hrej)]]; [done|].
    destruct Hclick as (a & Ha & d & v & Hd & Hv & _). simplify_eq.
    rewrite (startPage_match_unique _ _ _ Hd Hd') in Hv. by destruct (Hrej v).
Qed.

(** ** Pagination Detector: the scan *)

(** The scan answers true exactly when an item shows a signal and every
    item before it lets the scan pass. *)
Lemma scan_pagination_items_true (items : list li) (n : Z) :
  scan_pagination_items items n = Ok true ↔
    ∃ pre item post, items = pre ++ item :: post
                     ∧ Forall (fun i => quiet i n) pre ∧ shows_signal item n.
Proof.
  induction items as [|item items IH].
  - split; [done|]. intros (pre & item & post & Hs & _). by destruct pre.
  - destruct (scan_pagination_items_cons item items n)
      as [[Hshows ->]|[[Hquiet ->]|[Hrej ->]]].
    + split; [intros _|done]. exists [], item, items. by split_and!.
    + rewrite IH. split.
      * intros (pre & item' & post & -> & Hpre & Hshows).
        exists (item :: pre), item', post. split_and!; [done|by constructor|done].
      * intros (pre & item' & post & Hs & Hpre & Hshows). destruct pre as [|i pre].
        -- injection Hs as <- <-. by destruct (quiet_not_shows_signal item n).
        -- injection Hs as <- ->. inversion Hpre; subst. by exists pre, item', post.
    + split; [done|]. intros (pre & item' & post & Hs & Hpre & Hshows).
      destruct pre as [|i pre].
      * injection Hs as <- <-. by destruct (shows_signal_not_rejected item n).
      * injection Hs as <- ->. inversion Hpre; subst.
        by destruct (quiet_not_rejected item n).
Qed.

(** The scan answers false exactly when every item lets it pass. *)
Lemma scan_pagination_items_false (items : list li) (n : Z) :
  scan_pagination_items items n = Ok false ↔ Forall (fun i => quiet i n) items.
Proof.
  induction items as [|item items IH].
  - split; [constructor|done].
  - destruct (scan_pagination_items_cons item items n)
      as [[Hshows ->]|[[Hquiet ->]|[Hrej ->]]].
    + split; [done|]. intros H. inversion H; subst.
      by destruct (quiet_not_shows_signal item n).
    + rewrite IH. split; [by constructor|]. intros H. by inversion H.
    + split; [done|]. intros H. inversion H; subst.
      by destruct (quiet_not_rejected item n).
Qed.

(** The scan raises exactly when an item carries digits that [int]
    rejects and every item before it lets the scan pass; what it raises
    is [ValueError]. *)
Lemma scan_pagination_items_raise (items : list li) (n : Z) (e : exn) :
  scan_pagination_items items n = Raise e ↔
    e = ValueError
    ∧ ∃ pre item post, items = pre ++ item :: post
                       ∧ Forall (fun i => quiet i n) pre ∧ item_rejected item n.
Proof.
  induction items as [|item items IH].
  - split; [done|]. intros (_ & pre & item & post & Hs & _). by destruct pre.
  - destruct (scan_pagination_items_cons item items n)
      as [[Hshows ->]|[[Hquiet ->]|[Hrej ->]]].
    + split; [done|]. intros (_ & pre & item' & post & Hs & Hpre & Hrej).
      destruct pre as [|i pre].
      * injection Hs as <- <-. by destruct (shows_signal_not_rejected item n).
      * injection Hs as <- ->. inversion Hpre; subst.
        by destruct (quiet_not_shows_signal item n).
    + rewrite IH. split.
      * intros (-> & pre & item' & post & -> & Hpre & Hrej). split; [done|].
        exists (item :: pre), item', post. split_and!; [done|by constructor|done].
      * intros (-> & pre & item' & post & Hs & Hpre & Hrej). split; [done|].
        destruct pre as [|i pre].
        -- injection Hs as <- <-. by destruct (quiet_not_rejected item n).
        -- injection Hs as <- ->. inversion Hpre; subst. by exists pre, item', post.
    + split.
      * intros [= <-]. split; [done|]. exists [], item, items. by split_and!.
      * by intros [-> _].
Qed.

(** Where no first link carries rejected digits, an item shows a signal
    or lets the scan pass. *)
Lemma accepted_item_cases (item : li) (n : Z) :
  ¬ text_rejected item → ¬ assignment_rejected item →
  (shows_signal item n
   ∧ (signal_next item ∨ signal_page_number item n ∨ signal_onclick item n))
  ∨ (quiet item n
     ∧ ¬ (signal_next item ∨ signal_page_number item n ∨ signal_onclick item n)).
Proof.
  intros Htext Hclick.
  destruct (scan_pagination_items_cons item [] n)
    as [[Hshows _]|[[Hquiet _]|[[_ Hrej] _]]].
  - left. split; [done|]. destruct Hshows as [?|[?|[_ ?]]]; eauto.
  - right. split; [done|]. destruct Hquiet as (? & ? & ? & _). by intros [?|[?|?]].
  - destruct Hrej as [?|[_ ?]]; done.
Qed.

(** The signals and the rejected digits, read with [int] and
    [re.search]. *)
Lemma signal_page_number_int (item : li) (n : Z) :
  signal_page_number item n ↔
    ∃ a v, find_a item = Some a ∧ int (code_points (a_text a)) = Ok v ∧ (v > n)%Z.
Proof.
  unfold signal_page_number, link_number_above. split.
  - intros (a & Ha & v & Hv%int_Ok & Hgt). by exists a, v.
  - intros (a & v & Ha & Hv%int_Ok & Hgt). exists a. split; [done|]. by exists v.
Qed.

Lemma signal_onclick_int (item : li) (n : Z) :
  signal_onclick item n ↔
    ∃ a d v, find_a item = Some a
             ∧ re_search_startPage (code_points (onclick a)) = Some d
             ∧ int d = Ok v ∧ (v > n)%Z.
Proof.
  unfold signal_onclick, link_assignment_above. split.
  - intros (a & Ha & d & v & Hd%re_search_startPage_spec & Hv%int_Ok & Hgt).
    by exists a, d, v.
  - intros (a & d & v & Ha & Hd%re_search_startPage_spec & Hv%int_Ok & Hgt).
    exists a. split; [done|]. by exists d, v.
Qed.

Lemma text_rejected_int (item : li) :
  text_rejected item ↔
    ∃ a, find_a item = Some a
         ∧ isdigit (code_points (a_text a)) = true
         ∧ int (code_points (a_text a)) = Raise ValueError.
Proof.
  unfold text_rejected. split.
  - intros (a & Ha & Hd & Hrej). exists a. split_and!; [done|done|].
    by apply int_Raise.
  - intros (a & Ha & Hd & Hrej%int_Raise). exists a. by destruct Hrej.
Qed.

Lemma assignment_rejected_int (item : li) :
  assignment_rejected item ↔
    ∃ a d, find_a item = Some a
           ∧ re_search_startPage (code_points (onclick a)) = Some d
           ∧ int d = Raise ValueError.
Proof.
  unfold assignment_rejected. split.
  - intros (a & d & Ha & Hd%re_search_startPage_spec & Hrej). exists a, d.
    split_and!; [done|done|]. by apply int_Raise.
  - intros (a & d & Ha & Hd%re_search_startPage_spec & Hrej%int_Raise).
    exists a, d. by destruct Hrej.
Qed.

(** C6. Without a pagination control the detector answers false. With
    one whose items' first links carry no digits that [int] rejects, it
    answers, and the answer is true exactly when some item of the control
    shows one of the three signals for the current page: a title with a
    next term on an item not marked disabled, a first link whose text is
    a number above the page, or a first link whose click action assigns,
    leftmost, a number above the page to [startPage]; it is false
    otherwise. *)
Theorem has_next_page_signals (page : soup) (n : Z) :
  (pagination_ul page = None → _has_next_page page n = Ok false)
  ∧ (∀ items, pagination_ul page = Some items →
       (∀ item, item ∈ items → ¬ text_rejected item ∧ ¬ assignment_rejected item) →
       (_has_next_page page n = Ok true ↔
          ∃ item, item ∈ items
                  ∧ (signal_next item ∨ signal_page_number item n
                     ∨ signal_onclick item n))
       ∧ (_has_next_page page n = Ok false ↔
            ∀ item, item ∈ items →
                    ¬ signal_next item ∧ ¬ signal_page_number item n
                    ∧ ¬ signal_onclick item n)
       ∧ (_has_next_page page n = Ok true ∨ _has_next_page page n = Ok false)).
Proof.
  unfold _has_next_page. split; [by intros ->|].
  intros items -> Haccepted.
  assert (Hcases : ∀ item, item ∈ items →
            (shows_signal item n
             ∧ (signal_next item ∨ signal_page_number item n ∨ signal_onclick item n))
            ∨ (quiet item n
               ∧ ¬ (signal_next item ∨ signal_page_number item n
                    ∨ signal_onclick item n))).
  { intros item Hin. destruct (Haccepted item Hin). by apply accepted_item_cases. }
  clear Haccepted.
  assert (Htrue : scan_pagination_items items n = Ok true ↔
            ∃ item, item ∈ items
                    ∧ (signal_next item ∨ signal_page_number item n
                       ∨ signal_onclick item n)).
  { rewrite scan_pagination_items_true. split.
    - intros (pre & item & post & -> & _ & Hshows). exists item.
      assert (Hin : item ∈ pre ++ item :: post)
        by (apply elem_of_app; right; left).
      split; [done|]. destruct (Hcases item Hin) as [[_ ?]|[Hq _]]; [done|].
      by destruct (quiet_not_shows_signal item n).
    - induction items as [|i items IH].
      + intros (item & Hin & _). by apply elem_of_nil in Hin.
      + intros (item & Hin & Hsig).
        destruct (Hcases i) as [[Hshows _]|[Hq Hno]]; [by left| |].
        * exists [], i, items. by split_and!.
        * apply elem_of_cons in Hin as [->|Hin]; [done|].
          destruct IH as (pre & item' & post & -> & Hpre & Hshows).
          -- intros item' Hin'. apply Hcases. by right.
          -- eauto.
          -- exists (i :: pre), item', post. split_and!; [done|by constructor|done]. }
  assert (Hfalse : scan_pagination_items items n = Ok false ↔
            ∀ item, item ∈ items →
                    ¬ signal_next item ∧ ¬ signal_page_number item n
                    ∧ ¬ signal_onclick item n).
  { rewrite scan_pagination_items_false, Forall_forall. split.
    - intros Hq item Hin. by destruct (Hq item Hin) as (? & ? & ? & _).
    - intros Hno item Hin. destruct (Hcases item Hin) as [[_ Hsig]|[Hq _]]; [|done].
      destruct (Hno item Hin) as (? & ? & ?). by destruct Hsig as [?|[?|?]]. }
  split_and!; [done|done|].
  destruct (scan_pagination_items items n) as [[|]|e] eqn:Hscan; [by left|by right|].
  apply scan_pagination_items_raise in Hscan
    as (_ & pre & item & post & -> & _ & Hrej).
  assert (Hin : item ∈ pre ++ item :: post)
        by (apply elem_of_app; right; left).
  destruct (Hcases item Hin) as [[Hshows _]|[Hq _]].
  - by destruct (shows_signal_not_rejected item n).
  - by destruct (quiet_not_rejected item n).
Qed.

Lemma has_next_page_outcomes (page : soup) (n : Z) :
  _has_next_page page n = Ok true ∨ _has_next_page page n = Ok false
  ∨ _has_next_page page n = Raise ValueError.
Proof.
  unfold _has_next_page. destruct (pagination_ul page) as [items|]; [|by right; left].
  destruct (scan_pagination_items items n) as [[|]|e] eqn:Hscan;
    [by left|by right; left|].
  apply scan_pagination_items_raise in Hscan as [-> _]. by right; right.
Qed.

(** X18. The first item that does not let the scan pass decides the
    detector's answer. The answer is true exactly when that item shows a
    signal: a next title on an item not disabled, a first link whose text
    is a number above the page, or a first link whose text [isdigit]
    rejects or [int] converts and whose click action assigns a number
    above the page. The answer is false exactly when there is no control
    or every item lets the scan pass. The detector raises exactly when
    that item's first link carries digits [int] rejects: in a text that
    [isdigit] accepts, or in the [startPage] number of the click action of
    a link whose text is no number above the page; it raises [ValueError]
    and nothing else. *)
Theorem has_next_page_first_deciding_item (page : soup) (n : Z) :
  (_has_next_page page n = Ok true ↔
     ∃ pre item post, pagination_ul page = Some (pre ++ item :: post)
                      ∧ Forall (fun i => quiet i n) pre ∧ shows_signal item n)
  ∧ (_has_next_page page n = Ok false ↔
       pagination_ul page = None
       ∨ ∃ items, pagination_ul page = Some items ∧ Forall (fun i => quiet i n) items)
  ∧ (∀ e, _has_next_page page n = Raise e ↔
       e = ValueError
       ∧ ∃ pre item post, pagination_ul page = Some (pre ++ item :: post)
                          ∧ Forall (fun i => quiet i n) pre ∧ item_rejected item n).
Proof.
  unfold _has_next_page. destruct (pagination_ul page) as [items|]; split_and!.
  - rewrite scan_pagination_items_true. split.
    + intros (pre & item & post & -> & ? & ?). by exists pre, item, post.
    + intros (pre & item & post & [= ->] & ? & ?). by exists pre, item, post.
  - rewrite scan_pagination_items_false. split.
    + intros ?. right. by exists items.
    + by intros [?|(items' & [= <-] & ?)].
  - intros e. rewrite scan_pagination_items_raise. split.
    + intros (-> & pre & item & post & -> & ? & ?). split; [done|].
      by exists pre, item, post.
    + intros (-> & pre & item & post & [= ->] & ? & ?). split; [done|].
      by exists pre, item, post.
  - split; [done|]. by intros (pre & item & post & ? & _).
  - split; [by left|done].
  - intros e. split; [done|]. by intros (_ & pre & item & post & ? & _).
Qed.

(** ** Search Session Driver *)

Lemma make_search_request_cases (web : portal) (data : gmap string form_value) :
  (_make_search_request web data = Ok None
   ∧ (session_post web data = Raise RequestException
      ∨ ∃ r, session_post web data = Ok r ∧ (400 ≤ status_code r < 600)%Z))
  ∨ (∃ r, _make_search_request web data = Ok (Some r)
          ∧ session_post web data = Ok r ∧ response_ok r = true)
  ∨ (∃ e, _make_search_request web data = Raise e ∧ e ≠ RequestException
          ∧ session_post web data = Raise e).
Proof.
  unfold _make_search_request, response_ok, raise_for_status.
  destruct (session_post web data) as [r|e] eqn:Hpost; simpl.
  - destruct (bool_decide (400 ≤ status_code r < 600)%Z) eqn:Hstatus; simpl.
    + left. split; [done|]. right. apply bool_decide_eq_true in Hstatus. eauto.
    + right. left. exists r. by rewrite Hstatus.
  - destruct e; simpl.
    + left. split; [done|by left].
    + right. right. exists IndexError. done.
    + right. right. exists KeyError. done.
    + right. right. exists ValueError. done.
Qed.

Lemma loop_body_view (web : portal) (search_data : gmap string form_value)
    (max_pages : option Z) (st : loop_state) :
  body_view web search_data max_pages st (loop_body web search_data max_pages st).
Proof.
  unfold loop_body.
  destruct (bound_reached max_pages (page_num st)) eqn:Hbound; [by constructor|].
  destruct (make_search_request_cases web (page_form search_data (page_num st)))
    as [[Hreq _]|[(r & Hreq & _ & Hok)|(e & Hreq & Hne & _)]]; rewrite Hreq; simpl.
  - by apply view_failed.
  - rewrite Hok. simpl.
    destruct (parse_results_total (tables (content r))) as [[|a antennas] Hparse];
      rewrite Hparse; simpl.
    + by eapply view_empty.
    + destruct (has_next_page_outcomes (content r) (page_num st))
        as [Hnext|[Hnext|Hnext]]; rewrite Hnext; simpl.
      * unfold log_event. simpl. rewrite <- app_assoc. simpl. by eapply view_more.
      * by eapply view_last.
      * by eapply view_detector_raised.
  - destruct e; try done; simpl; by apply view_raised.
Qed.

(** Case analysis on one pass of the loop, through [loop_body_view]. *)
Ltac view_loop_body web search_data max_pages st :=
  destruct (loop_body_view web search_data max_pages st) as
    [Hb'|Hb' Hreq'|e' Hb' Hreq' Hne|r' Hb' Hreq' Hparse'
     |r' a' antennas' Hb' Hreq' Hparse' Hnext'
     |r' a' antennas' Hb' Hreq' Hparse' Hnext'
     |r' a' antennas' Hb' Hreq' Hparse' Hnext'].

Section Paging.

Variable web : portal.
Variable search_data : gmap string form_value.
Variable max_pages : option Z.

Lemma page_goes_on_true (n : Z) :
  page_goes_on web search_data max_pages n = true ↔
    bound_reached max_pages n = false
    ∧ ∃ r a antennas,
        _make_search_request web (page_form search_data n) = Ok (Some r)
        ∧ _parse_results (tables (content r)) = Ok (a :: antennas)
        ∧ _has_next_page (content r) n = Ok true.
Proof.
  unfold page_goes_on, page_antennas, page_has_next.
  destruct (_make_search_request web (page_form search_data n))
    as [[r|]|e] eqn:Hreq.
  - destruct (_parse_results (tables (content r)))
      as [[|a antennas]|e] eqn:Hparse.
    + rewrite andb_false_r. simpl. split; [done|].
      intros (_ & r' & a & antennas & Hr & Ha & _). congruence.
    + rewrite andb_true_r. rewrite andb_true_iff, negb_true_iff. split.
      * intros [Hb Hn]. split; [done|]. exists r, a, antennas.
        by destruct (_has_next_page (content r) n) as [[|]|e].
      * intros (Hb & r' & a' & antennas' & Hr & Ha & Hn). split; [done|].
        simplify_eq. by rewrite Hn.
    + rewrite andb_false_r. simpl. split; [done|].
      intros (_ & r' & a & antennas & Hr & Ha & _). congruence.
  - rewrite andb_false_r. split; [done|].
    intros (_ & r' & a & antennas & Hr & _). congruence.
  - rewrite andb_false_r. split; [done|].
    intros (_ & r' & a & antennas & Hr & _). congruence.
Qed.

Lemma loop_body_goes_on (st : loop_state) :
  page_goes_on web search_data max_pages (page_num st) = true →
  loop_body web search_data max_pages st
  = Continue (advance web search_data st 1).
Proof.
  intros (Hb & r & a & antennas & Hreq & Hparse & Hnext)%page_goes_on_true.
  unfold advance. simpl. unfold page_antennas. rewrite Hreq, Hparse, app_nil_r.
  view_loop_body web search_data max_pages st; try congruence.
  rewrite Hreq in Hreq'. injection Hreq' as <-.
  rewrite Hparse in Hparse'. injection Hparse' as <- <-. reflexivity.
Qed.

Lemma loop_body_stops (st : loop_state) :
  page_goes_on web search_data max_pages (page_num st) = false →
  ∀ st', loop_body web search_data max_pages st ≠ Continue st'.
Proof.
  intros Hstop st' Hcont.
  destruct (loop_body_view web search_data max_pages st); try done.
  assert (page_goes_on web search_data max_pages (page_num st) = true);
    [|congruence].
  apply page_goes_on_true. eauto 10.
Qed.

Lemma advance_0 (st : loop_state) : advance web search_data st 0 = st.
Proof.
  destruct st as [p acc tr]. unfold advance. simpl.
  rewrite !app_nil_r. f_equal. lia.
Qed.

Lemma advance_S (st : loop_state) (k : nat) :
  advance web search_data st (S k)
  = advance web search_data (advance web search_data st 1) k.
Proof.
  destruct st as [p acc tr]. unfold advance. simpl.
  rewrite !app_nil_r, <- !app_assoc. simpl. f_equal. lia.
Qed.

Lemma page_num_advance (st : loop_state) (k : nat) :
  page_num (advance web search_data st k) = (page_num st + Z.of_nat k)%Z.
Proof. reflexivity. Qed.

(** As long as pages go on, each pass of the loop moves to the next
    page. *)
Lemma paging_loop_advance (k : nat) : ∀ (st : loop_state) (fuel : nat),
  (∀ j : nat, (j < k)%nat →
     page_goes_on web search_data max_pages (page_num st + Z.of_nat j) = true) →
  paging_loop (k + fuel) web search_data max_pages st
  = paging_loop fuel web search_data max_pages (advance web search_data st k).
Proof.
  induction k as [|k IH]; intros st fuel Hgo.
  - by rewrite advance_0.
  - simpl. rewrite loop_body_goes_on.
    2:{ specialize (Hgo 0%nat ltac:(lia)). by rewrite Z.add_0_r in Hgo. }
    rewrite (advance_S st k). apply IH. intros j Hj.
    rewrite page_num_advance.
    specialize (Hgo (S j) ltac:(lia)).
    replace (page_num st + Z.of_nat 1 + Z.of_nat j)%Z
      with (page_num st + Z.of_nat (S j))%Z by lia. done.
Qed.

(** Every run is a number of pages that go on, followed by one pass that
    stops the loop unless the fuel ran out first. *)
Lemma paging_loop_decompose (fuel : nat) : ∀ st : loop_state,
  ∃ k : nat,
    (k ≤ fuel)%nat
    ∧ (∀ j : nat, (j < k)%nat →
         page_goes_on web search_data max_pages (page_num st + Z.of_nat j) = true)
    ∧ ((k = fuel
        ∧ paging_loop fuel web search_data max_pages st
          = Running (advance web search_data st k))
       ∨ ((k < fuel)%nat
          ∧ page_goes_on web search_data max_pages (page_num st + Z.of_nat k) = false
          ∧ paging_loop fuel web search_data max_pages st
            = outcome_of_step
                (loop_body web search_data max_pages (advance web search_data st k)))).
Proof.
  induction fuel as [|fuel IH]; intros st.
  - exists 0%nat. split_and!; [lia|intros; lia|]. left. by rewrite advance_0.
  - destruct (page_goes_on web search_data max_pages (page_num st)) eqn:Hgo.
    + destruct (IH (advance web search_data st 1))
        as (k & Hk & Hpages & Hend).
      exists (S k). split_and!; [lia| |].
      * intros [|j] Hj; [by rewrite Z.add_0_r|].
        specialize (Hpages j ltac:(lia)). rewrite page_num_advance in Hpages.
        replace (page_num st + Z.of_nat (S j))%Z
          with (page_num st + Z.of_nat 1 + Z.of_nat j)%Z by lia. done.
      * simpl. rewrite (loop_body_goes_on st Hgo), (advance_S st k).
        destruct Hend as [[-> Hrun]|(Hlt & Hstop & Hrun)].
        -- left. done.
        -- right. split_and!; [lia| |done].
           rewrite page_num_advance in Hstop.
           replace (page_num st + Z.of_nat (S k))%Z
             with (page_num st + Z.of_nat 1 + Z.of_nat k)%Z by lia. done.
    + exists 0%nat. split_and!; [lia|intros; lia|]. right.
      rewrite Z.add_0_r, advance_0. split_and!; [lia|done|]. simpl.
      pose proof (loop_body_stops st Hgo) as Hstop.
      destruct (loop_body web search_data max_pages st); simpl; [|done|done].
      by destruct (Hstop st0).
Qed.

End Paging.

Lemma page_form_startPage (search_data : gmap string form_value) (n : Z) :
  page_form search_data n !! "startPage" = Some (VInt n).
Proof.
  unfold page_form. rewrite lookup_insert_ne by done. by rewrite lookup_insert_eq.
Qed.

Lemma page_form_inj (search_data : gmap string form_value) (n n' : Z) :
  page_form search_data n = page_form search_data n' → n = n'.
Proof.
  intros Heq. pose proof (page_form_startPage search_data n) as Hn.
  rewrite Heq, page_form_startPage in Hn. congruence.
Qed.

Lemma elem_of_events_of_pages (search_data : gmap string form_value)
    (data : gmap string form_value) (k : nat) : ∀ p : Z,
  EvPost data ∈ events_of_pages search_data p k →
  ∃ j : nat, (j < k)%nat ∧ data = page_form search_data (p + Z.of_nat j).
Proof.
  induction k as [|k IH]; intros p Hin; simpl in Hin.
  - by apply elem_of_nil in Hin.
  - apply elem_of_cons in Hin as [Heq|Hin].
    + exists 0%nat. split; [lia|]. rewrite Z.add_0_r. congruence.
    + apply elem_of_cons in Hin as [Heq|Hin]; [done|].
      destruct (IH _ Hin) as (j & Hj & ->). exists (S j). split; [lia|].
      f_equal. lia.
Qed.

Lemma page_requests_events_of_pages (search_data : gmap string form_value)
    (k : nat) : ∀ p : Z,
  page_requests (events_of_pages search_data p k) = k
  ∧ sleeps (events_of_pages search_data p k) = k.
Proof.
  unfold page_requests, sleeps.
  induction k as [|k IH]; intros p; simpl; [done|].
  destruct (IH (p + 1)%Z) as [-> ->]. done.
Qed.

Section Stopping.

Variable web : portal.
Variable search_data : gmap string form_value.
Variable max_pages : option Z.

Lemma nothing_does_not_go_on (n : Z) :
  page_yields_nothing web search_data n →
  page_goes_on web search_data max_pages n = false.
Proof.
  intros Hnothing. apply not_true_iff_false.
  intros (_ & r & a & antennas & Hreq & Hparse & _)%page_goes_on_true.
  destruct Hnothing as [Hnone|(r' & Hreq' & Hparse')]; [congruence|].
  rewrite Hreq in Hreq'. injection Hreq' as <-. congruence.
Qed.

Lemma loop_body_nothing (st : loop_state) :
  bound_reached max_pages (page_num st) = false →
  page_yields_nothing web search_data (page_num st) →
  loop_body web search_data max_pages st
  = Break (log_event (EvPost (page_form search_data (page_num st))) st).
Proof.
  intros Hb Hnothing.
  view_loop_body web search_data max_pages st;
    try done; try congruence;
    destruct Hnothing as [Hnone|(r & Hreq & Hparse)]; try congruence;
    rewrite Hreq in Hreq'; injection Hreq' as <-; congruence.
Qed.

(** A run that requests a page which yields nothing ends there: it
    returns the records of the pages before it, having requested those
    pages and that one, each once and in order. *)
Lemma scrape_ends_at_page_yielding_nothing (fuel : nat) (n : Z) :
  page_yields_nothing web search_data n →
  EvPost (page_form search_data n)
    ∈ events_of (_scrape_all_pages fuel web search_data max_pages) →
  _scrape_all_pages fuel web search_data max_pages
  = Done (antennas_of_pages web search_data 1 (Z.to_nat (n - 1)))
      (events_of_pages search_data 1 (Z.to_nat (n - 1))
       ++ [EvPost (page_form search_data n)]).
Proof.
  intros Hnothing Hin. unfold _scrape_all_pages in *.
  pose proof (nothing_does_not_go_on n Hnothing) as Hstopn.
  assert (Hbefore : ∀ k : nat,
    (∀ j : nat, (j < k)%nat →
       page_goes_on web search_data max_pages (1 + Z.of_nat j) = true) →
    EvPost (page_form search_data n) ∉ events_of_pages search_data 1 k).
  { intros k Hpages (j & Hj & Heq)%elem_of_events_of_pages.
    apply page_form_inj in Heq as ->. rewrite (Hpages j Hj) in Hstopn. done. }
  destruct (paging_loop_decompose web search_data max_pages fuel (LoopState 1 [] []))
    as (k & Hk & Hpages & [[-> Hrun]|(Hlt & Hstop & Hrun)]); simpl in Hpages.
  - rewrite Hrun in Hin. simpl in Hin. by apply Hbefore in Hin.
  - rewrite Hrun in Hin |- *. simpl in Hstop.
    set (st := advance web search_data (LoopState 1 [] []) k) in *.
    assert (Hpage : page_num st = (1 + Z.of_nat k)%Z) by done.
    assert (Hposted :
      EvPost (page_form search_data n)
        ∈ events_of_pages search_data 1 k
          ++ [EvPost (page_form search_data (1 + Z.of_nat k))] →
      n = (1 + Z.of_nat k)%Z).
    { intros [Hin'|Hin']%elem_of_app.
      - by apply Hbefore in Hin'.
      - apply list_elem_of_singleton in Hin'. injection Hin' as Heq.
        by apply page_form_inj in Heq. }
    assert (Hk1 : Z.to_nat (1 + Z.of_nat k - 1) = k) by lia.
    view_loop_body web search_data max_pages st; simpl in Hin.
    + by apply Hbefore in Hin.
    + apply Hposted in Hin as ->. simpl. by rewrite Hk1.
    + apply Hposted in Hin as ->. rewrite Hpage in Hreq'.
      destruct Hnothing as [?|(r & ? & _)]; congruence.
    + apply Hposted in Hin as ->. simpl. by rewrite Hk1.
    + apply Hposted in Hin as ->. rewrite Hpage in Hreq'.
      destruct Hnothing as [?|(r & Hreq & Hparse)]; [congruence|].
      rewrite Hreq in Hreq'. injection Hreq' as <-. congruence.
    + apply Hposted in Hin as ->. rewrite Hpage in Hreq'.
      destruct Hnothing as [?|(r & Hreq & Hparse)]; [congruence|].
      rewrite Hreq in Hreq'. injection Hreq' as <-. congruence.
    + assert (page_goes_on web search_data max_pages (page_num st) = true);
        [|congruence].
      apply page_goes_on_true. eauto 10.
Qed.

Lemma paging_loop_extends_trace (fuel : nat) : ∀ st : loop_state,
  ∃ events : list event,
    events_of (run_of (paging_loop fuel web search_data max_pages st))
    = trace st ++ events.
Proof.
  induction fuel as [|fuel IH]; intros st; simpl.
  - exists []. by rewrite app_nil_r.
  - destruct (loop_body_view web search_data max_pages st); simpl;
      try (by eexists); try (exists []; by rewrite app_nil_r).
    edestruct IH as [events ->]. simpl. rewrite <- app_assoc. by eexists.
Qed.

(** When every page before page [n] goes on and page [n] is within the
    bound, [n] passes of the loop suffice to request page [n]. *)
Lemma scrape_reaches_page (fuel : nat) (n : Z) :
  (1 ≤ n)%Z →
  (∀ j : Z, (1 ≤ j < n)%Z → page_goes_on web search_data max_pages j = true) →
  bound_reached max_pages n = false →
  (n ≤ Z.of_nat fuel)%Z →
  EvPost (page_form search_data n)
    ∈ events_of (_scrape_all_pages fuel web search_data max_pages).
Proof.
  intros Hn Hpages Hb Hfuel. unfold _scrape_all_pages.
  replace fuel with (Z.to_nat (n - 1) + S (fuel - Z.to_nat n))%nat by lia.
  rewrite paging_loop_advance.
  2:{ intros j Hj. simpl. apply Hpages. lia. }
  set (st := advance web search_data (LoopState 1 [] []) (Z.to_nat (n - 1))).
  assert (Hpage : page_num st = n) by (simpl; lia).
  simpl.
  view_loop_body web search_data max_pages st; rewrite ?Hpage in *.
  - congruence.
  - simpl. apply elem_of_app. right. by left.
  - simpl. apply elem_of_app. right. by left.
  - simpl. apply elem_of_app. right. by left.
  - simpl. apply elem_of_app. right. by left.
  - simpl. apply elem_of_app. right. by left.
  - edestruct paging_loop_extends_trace as [events ->]. simpl.
    apply elem_of_app. left. apply elem_of_app. right. by left.
Qed.

End Stopping.

Lemma page_requests_app (l1 l2 : list event) :
  page_requests (l1 ++ l2) = (page_requests l1 + page_requests l2)%nat.
Proof. unfold page_requests. by rewrite List.filter_app, length_app. Qed.

Lemma sleeps_app (l1 l2 : list event) :
  sleeps (l1 ++ l2) = (sleeps l1 + sleeps l2)%nat.
Proof. unfold sleeps. by rewrite List.filter_app, length_app. Qed.

(** C7. A page that is fetched and has no matching record ends the
    scrape: any run that requests page [n] returns the records of pages 1
    to [n - 1], in page order then row order, and its requests are those
    for pages 1 to [n], the last event being the request for page [n].
    The run gets that far with [n] passes of the loop when the pages
    before [n] go on and [n] is within the bound. For page 1 the result
    is empty and at most one request is made. *)
Theorem empty_page_ends_scrape (web : portal)
    (search_data : gmap string form_value) (max_pages : option Z) (n : Z) :
  page_is_empty web search_data n →
  (∀ fuel : nat,
     EvPost (page_form search_data n)
       ∈ events_of (_scrape_all_pages fuel web search_data max_pages) →
     _scrape_all_pages fuel web search_data max_pages
     = Done (antennas_of_pages web search_data 1 (Z.to_nat (n - 1)))
         (events_of_pages search_data 1 (Z.to_nat (n - 1))
          ++ [EvPost (page_form search_data n)]))
  ∧ ((1 ≤ n)%Z →
     (∀ j : Z, (1 ≤ j < n)%Z → page_goes_on web search_data max_pages j = true) →
     bound_reached max_pages n = false →
     ∀ fuel : nat, (n ≤ Z.of_nat fuel)%Z →
       _scrape_all_pages fuel web search_data max_pages
       = Done (antennas_of_pages web search_data 1 (Z.to_nat (n - 1)))
           (events_of_pages search_data 1 (Z.to_nat (n - 1))
            ++ [EvPost (page_form search_data n)]))
  ∧ (n = 1%Z → ∀ fuel : nat, (1 ≤ fuel)%nat →
       ∃ events : list event,
         _scrape_all_pages fuel web search_data max_pages = Done [] events
         ∧ (page_requests events ≤ 1)%nat).
Proof.
  intros Hempty.
  assert (Hnothing : page_yields_nothing web search_data n) by by right.
  split_and!.
  - intros fuel Hin. by apply scrape_ends_at_page_yielding_nothing.
  - intros Hn Hpages Hb fuel Hfuel.
    apply scrape_ends_at_page_yielding_nothing; [done|].
    by apply scrape_reaches_page.
  - intros -> [|fuel] Hfuel; [lia|]. unfold _scrape_all_pages. simpl.
    destruct (bound_reached max_pages 1) eqn:Hb.
    + exists []. unfold loop_body. simpl. rewrite Hb. simpl. split; [done|].
      unfold page_requests. simpl. lia.
    + rewrite (loop_body_nothing web search_data max_pages (LoopState 1 [] []) Hb Hnothing).
      simpl. eexists. split; [done|]. unfold page_requests. simpl. lia.
Qed.


(** ** Transport errors *)

Lemma try_except_request_catches {A : Type} (body : result A) (a : A) :
  try_except_request body (Ok a) ≠ Raise RequestException.
Proof. destruct body as [x|[]]; done. Qed.

Lemma try_except_request_raise {A : Type} (body : result A) (a : A) (e : exn) :
  try_except_request body (Ok a) = Raise e → body = Raise e.
Proof. destruct body as [x|[]]; done. Qed.

Lemma get_raise (web : portal) (k : nat) {A : Type}
    (f : response → result A) (e : exn) :
  (resp ← session_get web k; _ ← raise_for_status resp; f resp) = Raise e →
  (∀ resp, f resp ≠ Raise e) →
  e = RequestException ∨ session_get web k = Raise e.
Proof.
  intros Hbody Hf. destruct (session_get web k) as [resp|e'] eqn:Hget; simpl in Hbody.
  - unfold raise_for_status in Hbody. case_bool_decide; simpl in Hbody.
    + left. congruence.
    + by apply Hf in Hbody.
  - right. congruence.
Qed.

Lemma get_municipality_options_raise (web : portal) (k : nat) (e : exn) :
  get_municipality_options web k = Raise e →
  e ≠ RequestException ∧ session_get web k = Raise e.
Proof.
  unfold get_municipality_options. intros Hraise.
  split; [intros ->; by apply try_except_request_catches in Hraise|].
  pose proof Hraise as Hbody%try_except_request_raise.
  apply get_raise in Hbody as [->|?]; [|done|].
  - by apply try_except_request_catches in Hraise.
  - intros resp. by destruct (municipality_select (content resp)).
Qed.

Lemma prepare_search_data_raise (web : portal) (k : nat) (v : string) (e : exn) :
  _prepare_search_data web k v = Raise e →
  e ≠ RequestException ∧ session_get web k = Raise e.
Proof.
  unfold _prepare_search_data. intros Hraise.
  split; [intros ->; by apply try_except_request_catches in Hraise|].
  pose proof Hraise as Hbody%try_except_request_raise.
  apply get_raise in Hbody as [->|?]; [|done|done].
  by apply try_except_request_catches in Hraise.
Qed.

Lemma paging_loop_raised (web : portal) (search_data : gmap string form_value)
    (max_pages : option Z) (fuel : nat) : ∀ (st st' : loop_state) (e : exn),
  paging_loop fuel web search_data max_pages st = Raised e st' →
  e ≠ RequestException
  ∧ ((∃ data, session_post web data = Raise e)
     ∨ (e = ValueError
        ∧ ∃ n r, _make_search_request web (page_form search_data n) = Ok (Some r)
                 ∧ _has_next_page (content r) n = Raise ValueError)).
Proof.
  induction fuel as [|fuel IH]; intros st st' e; simpl; [done|].
  view_loop_body web search_data max_pages st; try done.
  - intros [= <- <-]. split; [done|]. left.
    destruct (make_search_request_cases web (page_form search_data (page_num st)))
      as [[Hreq _]|[(r & Hreq & _)|(e & Hreq & _ & Hpost)]]; [congruence|congruence|].
    exists (page_form search_data (page_num st)). congruence.
  - intros [= <- <-]. split; [done|]. right. eauto.
  - apply IH.
Qed.

Lemma transport_error_yields_nothing (web : portal)
    (search_data : gmap string form_value) (n : Z) :
  transport_error web (page_form search_data n) →
  page_yields_nothing web search_data n.
Proof.
  intros Herr. left. unfold _make_search_request.
  destruct Herr as [->|(r & -> & Hstatus)]; [done|]. simpl.
  unfold raise_for_status. by rewrite bool_decide_eq_true_2.
Qed.

Lemma search_municipality_paging (lower : string → string) (web : portal)
    (name : string) (max_pages : option Z) (search_data : gmap string form_value)
    (fuel : nat) :
  prepared_search_data lower web name = Some search_data →
  search_municipality lower fuel web name max_pages
  = prepend_events [EvGet; EvGet]
      (_scrape_all_pages fuel web search_data max_pages).
Proof.
  unfold prepared_search_data, search_municipality.
  destruct (get_municipality_options web 0) as [opts|]; [|done].
  destruct (_find_municipality_value lower name opts) as [v|]; [|done].
  destruct (nonempty v); [|done]. simpl.
  destruct (_prepare_search_data web 1 v) as [[sd|]|]; [|done|done].
  case_bool_decide; [done|]. by intros [= ->].
Qed.

Lemma prepend_events_Done (events : list event) (r : run)
    (v : list antenna) (evs : list event) :
  r = Done v evs → prepend_events events r = Done v (events ++ evs).
Proof. by intros ->. Qed.

Lemma elem_of_events_prepend (d : gmap string form_value) (r : run) :
  EvPost d ∈ events_of (prepend_events [EvGet; EvGet] r) → EvPost d ∈ events_of r.
Proof.
  destruct r; simpl; intros Hin;
    repeat (apply elem_of_cons in Hin as [?|Hin]; [done|]); done.
Qed.

(** X17. [search_municipality] lets no transport exception escape: an
    exception that does escape is not a [RequestException]; it was raised
    as such by the session, or it is the [ValueError] of the detector on
    a page that was fetched. A failed fetch of the search page gives the
    empty result. A transport error on the request for page [n] ends the
    scrape with the records of pages 1 to [n - 1] returned, and the run
    gets that far with [n] passes of the loop when the pages before [n]
    go on and [n] is within the bound. *)
Theorem transport_errors_end_paging (lower : string → string) (web : portal)
    (name : string) (max_pages : option Z) :
  (∀ (fuel : nat) (e : exn) (events : list event),
     search_municipality lower fuel web name max_pages = Failed e events →
     e ≠ RequestException
     ∧ ((∃ k, session_get web k = Raise e)
        ∨ (∃ data, session_post web data = Raise e)
        ∨ (e = ValueError
           ∧ ∃ search_data n r,
               prepared_search_data lower web name = Some search_data
               ∧ _make_search_request web (page_form search_data n) = Ok (Some r)
               ∧ _has_next_page (content r) n = Raise ValueError)))
  ∧ (session_get web 0 = Raise RequestException →
     ∀ fuel : nat, search_municipality lower fuel web name max_pages = Done [] [EvGet])
  ∧ (∀ (search_data : gmap string form_value) (n : Z),
       prepared_search_data lower web name = Some search_data →
       transport_error web (page_form search_data n) →
       (∀ fuel : nat,
          EvPost (page_form search_data n)
            ∈ events_of (search_municipality lower fuel web name max_pages) →
          search_municipality lower fuel web name max_pages
          = Done (antennas_of_pages web search_data 1 (Z.to_nat (n - 1)))
              ([EvGet; EvGet]
               ++ events_of_pages search_data 1 (Z.to_nat (n - 1))
               ++ [EvPost (page_form search_data n)]))
       ∧ ((1 ≤ n)%Z →
          (∀ j : Z, (1 ≤ j < n)%Z →
             page_goes_on web search_data max_pages j = true) →
          bound_reached max_pages n = false →
          ∀ fuel : nat, (n ≤ Z.of_nat fuel)%Z →
            search_municipality lower fuel web name max_pages
            = Done (antennas_of_pages web search_data 1 (Z.to_nat (n - 1)))
                ([EvGet; EvGet]
                 ++ events_of_pages search_data 1 (Z.to_nat (n - 1))
                 ++ [EvPost (page_form search_data n)]))).
Proof.
  split_and!.
  - intros fuel e events. unfold search_municipality, prepared_search_data.
    destruct (get_municipality_options web 0) as [opts|e0] eqn:Hopts.
    2:{ intros [= <- <-]. apply get_municipality_options_raise in Hopts as [? ?].
        split; [done|]. left. eauto. }
    destruct (_find_municipality_value lower name opts) as [v|]; [|done].
    destruct (nonempty v); [|done]. simpl.
    destruct (_prepare_search_data web 1 v) as [[sd|]|e1] eqn:Hprep; [|done|].
    2:{ intros [= <- <-]. apply prepare_search_data_raise in Hprep as [? ?].
        split; [done|]. left. eauto. }
    case_bool_decide; [done|]. unfold _scrape_all_pages.
    destruct (paging_loop fuel web sd max_pages (LoopState 1 [] [])) as [st|e2 st|st]
      eqn:Hloop; simpl; [done| |done].
    intros [= <- <-].
    apply paging_loop_raised in Hloop as [? [?|(-> & n & r & ? & ?)]].
    + split; [done|]. right. by left.
    + split; [done|]. right. right. split; [done|]. by exists sd, n, r.
  - intros Hget fuel. unfold search_municipality, get_municipality_options.
    rewrite Hget. done.
  - intros search_data n Hprep Herr.
    pose proof (transport_error_yields_nothing web search_data n Herr) as Hnothing.
    split.
    + intros fuel Hin.
      rewrite (search_municipality_paging lower web name max_pages search_data fuel Hprep)
        in Hin |- *.
      apply elem_of_events_prepend in Hin.
      apply prepend_events_Done. by apply scrape_ends_at_page_yielding_nothing.
    + intros Hn Hpages Hb fuel Hfuel.
      rewrite (search_municipality_paging lower web name max_pages search_data fuel Hprep).
      apply prepend_events_Done.
      apply scrape_ends_at_page_yielding_nothing; [done|].
      by apply scrape_reaches_page.
Qed.

(** ** A page the detector cannot read *)

(** C9, where the code departs from it. A page that yields records and on
    which the detector raises [ValueError] aborts the scrape: when the
    pages before page [n] go on and page [n] is within the bound, [n]
    passes of the loop suffice and [search_municipality] lets the
    [ValueError] escape after the request for page [n]. The records of
    page [n] and of the pages before it are not returned. *)
Theorem bad_page_discards_partial_data (lower : string → string) (web : portal)
    (name : string) (max_pages : option Z) (search_data : gmap string form_value)
    (n : Z) (r : response) (a : antenna) (antennas : list antenna) :
  prepared_search_data lower web name = Some search_data →
  (1 ≤ n)%Z →
  (∀ j : Z, (1 ≤ j < n)%Z → page_goes_on web search_data max_pages j = true) →
  bound_reached max_pages n = false →
  _make_search_request web (page_form search_data n) = Ok (Some r) →
  _parse_results (tables (content r)) = Ok (a :: antennas) →
  _has_next_page (content r) n = Raise ValueError →
  ∀ fuel : nat, (n ≤ Z.of_nat fuel)%Z →
    search_municipality lower fuel web name max_pages
    = Failed ValueError
        ([EvGet; EvGet]
         ++ events_of_pages search_data 1 (Z.to_nat (n - 1))
         ++ [EvPost (page_form search_data n)])
    ∧ page_antennas web search_data n = a :: antennas.
Proof.
  intros Hprep Hn Hpages Hb Hreq Hparse Hnext fuel Hfuel. split.
  - rewrite (search_municipality_paging lower web name max_pages search_data fuel Hprep).
    unfold _scrape_all_pages.
    replace fuel with (Z.to_nat (n - 1) + S (fuel - Z.to_nat n))%nat by lia.
    rewrite paging_loop_advance.
    2:{ intros j Hj. simpl. apply Hpages. lia. }
    set (st := advance web search_data (LoopState 1 [] []) (Z.to_nat (n - 1))).
    assert (Hpage : page_num st = n) by (simpl; lia).
    simpl paging_loop.
    view_loop_body web search_data max_pages st; rewrite ?Hpage in *;
      try congruence.
    reflexivity.
  - unfold page_antennas. by rewrite Hreq, Hparse.
Qed.
(** ** The politeness delay *)

(** C8, as the code has it. A pass of the loop pauses exactly when its
    page goes on: the page is within the bound, is fetched, yields a
    record and the detector reports a next page; the pause then follows
    the request. A pass whose page does not go on ends the loop without a
    pause; so does, in particular, a pass whose page yields records while
    the detector reports no next page. The pause is taken even when the
    bound then ends the loop before another request. Over a whole run the
    number of pauses is the number of pages that went on. *)
Theorem delay_follows_detector (web : portal)
    (search_data : gmap string form_value) (max_pages : option Z)
    (st : loop_state) :
  (page_goes_on web search_data max_pages (page_num st) = true →
     loop_body web search_data max_pages st
     = Continue (LoopState (page_num st + 1)
                   (all_antennas st ++ page_antennas web search_data (page_num st))
                   (trace st ++ [EvPost (page_form search_data (page_num st)); EvSleep])))
  ∧ (page_goes_on web search_data max_pages (page_num st) = false →
     ∃ st', (loop_body web search_data max_pages st = Break st'
             ∨ ∃ e, loop_body web search_data max_pages st = Propagate e st')
            ∧ sleeps (trace st') = sleeps (trace st))
  ∧ (∀ r a antennas,
       bound_reached max_pages (page_num st) = false →
       _make_search_request web (page_form search_data (page_num st)) = Ok (Some r) →
       _parse_results (tables (content r)) = Ok (a :: antennas) →
       _has_next_page (content r) (page_num st) = Ok false →
       loop_body web search_data max_pages st
       = Break (LoopState (page_num st) (all_antennas st ++ a :: antennas)
                  (trace st ++ [EvPost (page_form search_data (page_num st))])))
  ∧ (page_goes_on web search_data max_pages (page_num st) = true →
     bound_reached max_pages (page_num st + 1) = true →
     loop_body web search_data max_pages (advance web search_data st 1)
     = Break (advance web search_data st 1))
  ∧ (∀ (fuel : nat) (v : list antenna) (events : list event),
       _scrape_all_pages fuel web search_data max_pages = Done v events →
       ∃ k : nat,
         (∀ j : nat, (j < k)%nat →
            page_goes_on web search_data max_pages (1 + Z.of_nat j) = true)
         ∧ page_goes_on web search_data max_pages (1 + Z.of_nat k) = false
         ∧ sleeps events = k).
Proof.
  split_and!.
  - intros Hgo. rewrite (loop_body_goes_on web search_data max_pages st Hgo).
    unfold advance. simpl. by rewrite app_nil_r.
  - intros Hstop.
    pose proof (loop_body_stops web search_data max_pages st Hstop) as Hnot.
    view_loop_body web search_data max_pages st;
      try (eexists; split; [by left|]; simpl; rewrite ?sleeps_app; simpl;
           unfold sleeps; simpl; lia).
    + eexists. split; [right; by eexists|]. simpl. rewrite sleeps_app.
      unfold sleeps. simpl. lia.
    + eexists. split; [right; by eexists|]. simpl. rewrite sleeps_app.
      unfold sleeps. simpl. lia.
    + by edestruct Hnot.
  - intros r a antennas Hb Hreq Hparse Hnext.
    view_loop_body web search_data max_pages st; congruence.
  - intros Hgo Hb. unfold loop_body. rewrite page_num_advance.
    change (Z.of_nat 1) with 1%Z. by rewrite Hb.
  - intros fuel v events. unfold _scrape_all_pages.
    destruct (paging_loop_decompose web search_data max_pages fuel (LoopState 1 [] []))
      as (k & Hk & Hpages & [[-> Hrun]|(Hlt & Hstop & Hrun)]);
      rewrite Hrun; [done|].
    intros Hdone. exists k. split_and!; [done|done|].
    set (st0 := advance web search_data (LoopState 1 [] []) k) in *.
    assert (Htrace : sleeps (events_of_pages search_data 1 k) = k)
      by apply page_requests_events_of_pages.
    view_loop_body web search_data max_pages st0;
      simpl in Hdone; try done; injection Hdone as <- <-;
      rewrite ?sleeps_app, ?Htrace; try done;
      change (sleeps [EvPost (page_form search_data (1 + Z.of_nat k))]) with 0%nat;
      lia.
Qed.


(** ** The max_pages bound *)

(** A bound of at least one page is kept, whatever the detector says; a
    negative bound stops the loop before the first request. *)
Lemma max_pages_bounds_requests (web : portal)
    (search_data : gmap string form_value) (m : Z) (fuel : nat) :
  ((1 ≤ m)%Z →
     (Z.of_nat (page_requests
                  (events_of (_scrape_all_pages fuel web search_data (Some m)))) ≤ m)%Z)
  ∧ ((m < 0)%Z → (1 ≤ fuel)%nat →
     _scrape_all_pages fuel web search_data (Some m) = Done [] []).
Proof.
  split.
  - intros Hm. unfold _scrape_all_pages.
    destruct (paging_loop_decompose web search_data (Some m) fuel (LoopState 1 [] []))
      as (k & Hk & Hpages & Hend). simpl in Hpages.
    assert (Hwithin : ∀ j : Z, bound_reached (Some m) j = false → (j ≤ m)%Z).
    { intros j. unfold bound_reached.
      rewrite bool_decide_eq_false_2 by lia. simpl.
      intros Hb%bool_decide_eq_false. lia. }
    assert (Hkm : (Z.of_nat k ≤ m)%Z).
    { destruct k as [|k]; [lia|].
      specialize (Hpages k ltac:(lia)).
      apply page_goes_on_true in Hpages as [Hb%Hwithin _]. lia. }
    assert (Hcount : page_requests (events_of_pages search_data 1 k) = k)
      by apply page_requests_events_of_pages.
    destruct Hend as [[-> Hrun]|(Hlt & Hstop & Hrun)]; rewrite Hrun; simpl.
    + rewrite Hcount. lia.
    + set (st0 := advance web search_data (LoopState 1 [] []) k) in *.
      view_loop_body web search_data (Some m) st0;
        simpl; rewrite ?page_requests_app, ?Hcount; try lia;
        apply Hwithin in Hb'; simpl in Hb';
        try change (page_requests [EvPost (page_form search_data (1 + Z.of_nat k))])
          with 1%nat;
        try lia.
      assert (page_goes_on web search_data (Some m) (page_num st0) = true);
        [|simpl in *; congruence].
      apply page_goes_on_true. split; [|eauto 10].
      unfold bound_reached. rewrite bool_decide_eq_false_2 by lia. simpl.
      apply bool_decide_eq_false_2. simpl. lia.
  - intros Hm Hfuel. destruct fuel as [|fuel]; [lia|].
    unfold _scrape_all_pages. simpl. unfold loop_body, bound_reached. simpl.
    rewrite bool_decide_eq_false_2 by lia.
    rewrite bool_decide_eq_true_2 by lia. done.
Qed.

Lemma page_goes_on_endless (search_data : gmap string form_value) (n : Z) :
  page_goes_on portal_endless search_data (Some 0%Z) n = true.
Proof.
  apply page_goes_on_true. split; [done|].
  exists (Response 200 endless_page), (record_of "1001"), [].
  split_and!; [done|by vm_compute|by vm_compute].
Qed.

(** C1 at the bound 0. With [max_pages = 0] and a portal whose every page
    has a record and an enabled "next" item, the loop never stops: after
    any number of passes it is still running and has issued one request
    per pass, more than the bound allows. *)
Theorem max_pages_zero_is_no_bound (search_data : gmap string form_value)
    (fuel : nat) :
  _scrape_all_pages fuel portal_endless search_data (Some 0%Z)
  = Unfinished (events_of_pages search_data 1 fuel)
  ∧ page_requests
      (events_of (_scrape_all_pages fuel portal_endless search_data (Some 0%Z)))
    = fuel
  ∧ _scrape_all_pages fuel portal_endless search_data (Some 0%Z)
    = _scrape_all_pages fuel portal_endless search_data None.
Proof.
  assert (Hzero : _scrape_all_pages fuel portal_endless search_data (Some 0%Z)
                  = Unfinished (events_of_pages search_data 1 fuel)).
  { unfold _scrape_all_pages.
    replace fuel with (fuel + 0)%nat at 1 by lia.
    rewrite paging_loop_advance; [done|].
    intros j _. apply page_goes_on_endless. }
  split_and!; [done| |].
  - rewrite Hzero. simpl. apply page_requests_events_of_pages.
  - rewrite Hzero. unfold _scrape_all_pages.
    replace fuel with (fuel + 0)%nat at 2 by lia.
    rewrite paging_loop_advance; [done|].
    intros j _. pose proof (page_goes_on_endless search_data (1 + Z.of_nat j)) as Hgo.
    apply page_goes_on_true in Hgo as [_ Hpage].
    apply page_goes_on_true. split; [done|]. done.
Qed.


(** * Further properties of the code *)

(** ** Substring containment *)

Lemma prefix_cons (a b : ascii) (p s : string) :
  String.prefix (String a p) (String b s)
  = if Ascii.ascii_dec a b then String.prefix p s else false.
Proof. reflexivity. Qed.

Lemma append_cons (a : ascii) (s t : string) :
  String a s +:+ t = String a (s +:+ t).
Proof. reflexivity. Qed.

Lemma prefix_spec (p s : string) :
  String.prefix p s = true ↔ ∃ post, s = p +:+ post.
Proof.
  revert s. induction p as [|a p IH]; intros s.
  - split; [intros _; exists s; reflexivity|intros _; by destruct s].
  - destruct s as [|b s].
    + split; [intros H; discriminate H|].
      intros [post Hpost]. rewrite append_cons in Hpost. discriminate Hpost.
    + rewrite prefix_cons. destruct (Ascii.ascii_dec a b) as [->|Hne].
      * rewrite IH. split; intros [post Hpost]; exists post;
          rewrite append_cons in *; congruence.
      * split; [done|]. intros [post Hpost]. rewrite append_cons in Hpost. congruence.
Qed.

Lemma contains_cons (needle : string) (c : ascii) (text : string) :
  contains needle (String c text)
  = String.prefix needle (String c text) || contains needle text.
Proof. reflexivity. Qed.

(** [needle in text] holds exactly when [text] is [needle] with something
    before and something after it. *)
Lemma contains_spec (needle text : string) :
  contains needle text = true ↔ ∃ pre post, text = pre +:+ needle +:+ post.
Proof.
  induction text as [|c text IH].
  - change (contains needle "") with (String.prefix needle "" || false).
    rewrite orb_false_r, prefix_spec. split.
    + intros [post Hpost]. exists "", post. exact Hpost.
    + intros ([|? pre] & post & Heq); [exists post; exact Heq|].
      rewrite append_cons in Heq. discriminate Heq.
  - rewrite contains_cons, orb_true_iff, IH, prefix_spec. split.
    + intros [[post Hpost]|(pre & post & ->)].
      * exists "", post. exact Hpost.
      * exists (String c pre), post. reflexivity.
    + intros ([|c' pre] & post & Heq).
      * left. exists post. exact Heq.
      * right. exists pre, post. rewrite append_cons in Heq. congruence.
Qed.

Lemma contains_refl (s : string) : contains s s = true.
Proof.
  apply contains_spec. exists "", "".
  change ("" +:+ s +:+ "") with (s +:+ "").
  induction s as [|c s IH]; [reflexivity|]. rewrite append_cons. congruence.
Qed.

Lemma contains_empty (s : string) : contains "" s = true.
Proof. apply contains_spec. exists "", s. reflexivity. Qed.

(** ** Header maps *)

Lemma header_map_is_Some (header_row : list cell) (k : string) :
  is_Some (_map_table_headers header_row !! k) ↔
    ∃ c, c ∈ header_row ∧ header_key (get_text c) = Some k.
Proof.
  split.
  - intros [i (c & Hi & Hc & _)%map_table_headers_lookup].
    exists c. split; [|done]. apply list_elem_of_lookup. eauto.
  - intros (c & [i Hi]%list_elem_of_lookup & Hc).
    by apply (map_headers_from_finds header_row 0 ∅ k i c).
Qed.

(** X1. Whether a header row is valid depends only on which cells it has,
    not on their order: two rows with the same cells in any order are
    both valid or both invalid, and a row is valid exactly when, for each
    of position_code, company, address and municipality, some cell is
    assigned to it. *)
Theorem header_validity_order_independent (row1 row2 : list cell) :
  row1 ≡ₚ row2 →
  _validate_header_map (_map_table_headers row1)
  = _validate_header_map (_map_table_headers row2)
  ∧ (_validate_header_map (_map_table_headers row1) = true ↔
       ∀ k, k ∈ required_headers →
            ∃ c, c ∈ row1 ∧ header_key (get_text c) = Some k).
Proof.
  intros Hperm.
  assert (Hvalid : ∀ row : list cell,
    _validate_header_map (_map_table_headers row) = true ↔
      ∀ k, k ∈ required_headers →
           ∃ c, c ∈ row ∧ header_key (get_text c) = Some k).
  { intros row. rewrite validate_header_map_iff, !header_map_is_Some.
    unfold required_headers. split.
    - intros (H1 & H2 & H3 & H4) k Hk.
      repeat (apply elem_of_cons in Hk as [->|Hk]; [done|]).
      by apply elem_of_nil in Hk.
    - intros Hall. split_and!; apply Hall; set_solver. }
  split; [|apply Hvalid].
  apply eq_true_iff_eq. rewrite !Hvalid.
  split; intros Hall k Hk; destruct (Hall k Hk) as (c & Hc & Hkey); exists c;
    (split; [|done]); [by rewrite <- Hperm|by rewrite Hperm].
Qed.

Lemma header_validity_order_independent_witness :
  _validate_header_map (_map_table_headers results_header)
  = _validate_header_map (_map_table_headers results_header_shuffled)
  ∧ (_validate_header_map (_map_table_headers results_header) = true ↔
       ∀ k, k ∈ required_headers →
            ∃ c, c ∈ results_header ∧ header_key (get_text c) = Some k).
Proof.
  apply (header_validity_order_independent results_header results_header_shuffled).
  unfold results_header, results_header_shuffled. solve_Permutation.
Defined.

(** ** Rows of a results table *)

Lemma header_map_index_in_row (header_row : list cell) (k : string) (i : nat) :
  _map_table_headers header_row !! k = Some i → (i < length header_row)%nat.
Proof.
  intros (c & Hi & _)%map_table_headers_lookup. by eapply lookup_lt_Some.
Qed.

Lemma extract_antenna_data_row_record (cells : list cell)
    (header_map : gmap string nat) (m : nat) :
  _validate_header_map header_map = true →
  (∀ (k : string) (i : nat), header_map !! k = Some i → (i ≤ m)%nat) →
  (m < length cells)%nat →
  _extract_antenna_data cells header_map = Ok (row_record header_map cells).
Proof.
  intros Hvalid Hle Hlong.
  destruct (extract_antenna_data_ok cells header_map m Hvalid Hle Hlong)
    as ([seq pos cat com adr mun] & -> & Hseq & Hpos & Hcat & Hcom & Hadr & Hmun).
  simpl in *. unfold row_record. rewrite Hpos, Hcom, Hadr, Hmun. simpl.
  by rewrite <- Hseq, <- Hcat.
Qed.

Lemma parse_data_rows_filter (header_map : gmap string nat) (m : nat)
    (rows : list (list cell)) :
  _validate_header_map header_map = true →
  max_values header_map = Ok m →
  parse_data_rows header_map rows
  = Ok (List.map (λ row, row_record header_map (find_all_td row))
          (List.filter (wider_than m) rows)).
Proof.
  intros Hvalid Hm.
  pose proof Hvalid as (Hpos & _)%validate_header_map_iff.
  destruct (max_values_bounds header_map "position_code" Hpos) as (m' & Hm' & Hle & _).
  assert (m' = m) as -> by congruence.
  induction rows as [|row rows IH]; [done|].
  simpl. rewrite Hm. simpl. unfold wider_than at 1.
  case_bool_decide as Hlong.
  - rewrite (extract_antenna_data_row_record _ _ m Hvalid Hle Hlong). simpl.
    by rewrite IH.
  - done.
Qed.

(** X2. With a valid header row the records of a table are those of the
    data rows that have more [td] cells than the largest column index of
    the header map, one record per such row, in row order, each field
    read from its column ([th] cells of a data row do not count). That
    index lies inside the header row, so a data row with at least as many
    [td] cells as the header row has cells is never passed over, and the
    table yields at most one record per data row. *)
Theorem table_records_in_row_order (header_row : list cell)
    (data_rows : list (list cell)) :
  _validate_header_map (_map_table_headers header_row) = true →
  ∃ m : nat,
    max_values (_map_table_headers header_row) = Ok m
    ∧ (m < length header_row)%nat
    ∧ _parse_table_results (header_row :: data_rows)
      = Ok (List.map (λ row, row_record (_map_table_headers header_row) (find_all_td row))
              (List.filter (wider_than m) data_rows))
    ∧ (∀ antennas, _parse_table_results (header_row :: data_rows) = Ok antennas →
         (length antennas ≤ length data_rows)%nat)
    ∧ (Forall (λ row, (length header_row ≤ length (find_all_td row))%nat) data_rows →
       _parse_table_results (header_row :: data_rows)
       = Ok (List.map (λ row, row_record (_map_table_headers header_row) (find_all_td row))
               data_rows)).
Proof.
  intros Hvalid.
  pose proof Hvalid as (Hpos & _)%validate_header_map_iff.
  destruct (max_values_bounds (_map_table_headers header_row) "position_code" Hpos)
    as (m & Hm & _ & k & Hk).
  apply header_map_index_in_row in Hk.
  assert (Htable : _parse_table_results (header_row :: data_rows)
    = Ok (List.map (λ row, row_record (_map_table_headers header_row) (find_all_td row))
            (List.filter (wider_than m) data_rows))).
  { destruct data_rows as [|row rows]; [done|].
    unfold _parse_table_results. rewrite Hvalid. simpl negb. cbv iota.
    by apply parse_data_rows_filter. }
  exists m. split_and!; [done|done|done| |].
  - intros antennas. rewrite Htable. intros [= <-].
    rewrite length_map. apply List.filter_length_le.
  - intros Hwide. rewrite Htable. do 2 f_equal. clear Htable.
    induction Hwide as [|row rows Hrow _ IH]; [done|]. simpl.
    unfold wider_than at 1. rewrite bool_decide_eq_true_2 by lia. by rewrite IH.
Qed.

Lemma table_records_in_row_order_witness :
  ∃ m : nat,
    max_values (_map_table_headers results_header) = Ok m
    ∧ (m < length results_header)%nat
    ∧ _parse_table_results
        (results_header :: [data_row "1" "1001"; short_row; row_with_th; data_row "2" "1002"])
      = Ok (List.map (λ row, row_record (_map_table_headers results_header) (find_all_td row))
              (List.filter (wider_than m)
                 [data_row "1" "1001"; short_row; row_with_th; data_row "2" "1002"]))
    ∧ (∀ antennas,
         _parse_table_results
           (results_header :: [data_row "1" "1001"; short_row; row_with_th; data_row "2" "1002"])
         = Ok antennas →
         (length antennas
          ≤ length [data_row "1" "1001"; short_row; row_with_th; data_row "2" "1002"])%nat)
    ∧ (Forall (λ row, (length results_header ≤ length (find_all_td row))%nat)
         [data_row "1" "1001"; short_row; row_with_th; data_row "2" "1002"] →
       _parse_table_results
         (results_header :: [data_row "1" "1001"; short_row; row_with_th; data_row "2" "1002"])
       = Ok (List.map (λ row, row_record (_map_table_headers results_header) (find_all_td row))
               [data_row "1" "1001"; short_row; row_with_th; data_row "2" "1002"])).
Proof.
  apply (table_records_in_row_order results_header
           [data_row "1" "1001"; short_row; row_with_th; data_row "2" "1002"]).
  vm_compute. reflexivity.
Defined.

Example table_with_odd_rows :
  _parse_table_results
    (results_header :: [data_row "1" "1001"; short_row; row_with_th; data_row "2" "1002"])
  = Ok [record_of "1001"; record_of "1002"].
Proof. vm_compute. reflexivity. Qed.

(** ** More on the Pagination Detector *)









(** ** More on page requests *)

(** X4. [_make_search_request] hands back a response exactly when the
    POST returned one whose status is outside 400..599; it gives [None]
    exactly on a transport error (the POST raised a [RequestException] or
    returned a 4xx or 5xx status); it never raises a [RequestException]
    itself. A response it hands back is true in a condition, so the
    loop's [if not response] fires on [None] only. *)
Theorem make_search_request_outcomes (web : portal)
    (data : gmap string form_value) :
  (_make_search_request web data = Ok None ↔ transport_error web data)
  ∧ (∀ r, _make_search_request web data = Ok (Some r) ↔
          session_post web data = Ok r ∧ ¬ (400 ≤ status_code r < 600)%Z)
  ∧ (∀ r, _make_search_request web data = Ok (Some r) → response_ok r = true)
  ∧ (∀ e, _make_search_request web data = Raise e ↔
          session_post web data = Raise e ∧ e ≠ RequestException).
Proof.
  unfold transport_error.
  destruct (make_search_request_cases web data)
    as [[Hreq Herr]|[(r & Hreq & Hpost & Hok)|(e & Hreq & Hne & Hpost)]].
  - split_and!.
    + done.
    + intros r. split; [congruence|]. intros [Hpost Hstatus].
      destruct Herr as [?|(r' & ? & ?)]; [congruence|].
      assert (r' = r) as -> by congruence. done.
    + congruence.
    + intros e. split; [congruence|]. intros [Hpost Hne].
      destruct Herr as [?|(r' & ? & ?)]; congruence.
  - assert (Hstatus : ¬ (400 ≤ status_code r < 600)%Z).
    { intros Hs. unfold response_ok, raise_for_status in Hok.
      by rewrite bool_decide_eq_true_2 in Hok. }
    split_and!.
    + split; [congruence|]. intros [?|(r' & ? & ?)]; [congruence|].
      assert (r' = r) as -> by congruence. done.
    + intros r'. split.
      * intros Heq. assert (r' = r) as -> by congruence. done.
      * intros [? _]. congruence.
    + intros r' Heq. assert (r' = r) as -> by congruence. done.
    + intros e. split; [congruence|]. intros [? _]. congruence.
  - split_and!.
    + split; [congruence|]. intros [?|(r' & ? & ?)]; congruence.
    + intros r. split; [congruence|]. intros [? _]. congruence.
    + congruence.
    + intros e'. split.
      * intros Heq. assert (e' = e) as -> by congruence. done.
      * intros [? _]. congruence.
Qed.


(** ** Runs of the paging loop *)

Lemma antennas_of_pages_snoc (web : portal) (search_data : gmap string form_value)
    (k : nat) : ∀ p : Z,
  antennas_of_pages web search_data p (S k)
  = antennas_of_pages web search_data p k
    ++ page_antennas web search_data (p + Z.of_nat k).
Proof.
  induction k as [|k IH]; intros p.
  - simpl. by rewrite app_nil_r, Z.add_0_r.
  - change (antennas_of_pages web search_data p (S (S k)))
      with (page_antennas web search_data p
            ++ antennas_of_pages web search_data (p + 1) (S k)).
    rewrite IH. simpl. rewrite <- app_assoc. do 3 f_equal. lia.
Qed.

(** What a pass does on a page that does not go on. *)
Lemma loop_body_stop_cases (web : portal) (search_data : gmap string form_value)
    (max_pages : option Z) (st : loop_state) :
  page_goes_on web search_data max_pages (page_num st) = false →
  (bound_reached max_pages (page_num st) = true
   ∧ loop_body web search_data max_pages st = Break st)
  ∨ (bound_reached max_pages (page_num st) = false
     ∧ ∃ e, e ≠ RequestException
            ∧ page_exception web search_data (page_num st) = Some e
            ∧ loop_body web search_data max_pages st
              = Propagate e (log_event (EvPost (page_form search_data (page_num st))) st))
  ∨ (bound_reached max_pages (page_num st) = false
     ∧ page_exception web search_data (page_num st) = None
     ∧ loop_body web search_data max_pages st
       = Break (LoopState (page_num st)
                  (all_antennas st ++ page_antennas web search_data (page_num st))
                  (trace st ++ [EvPost (page_form search_data (page_num st))]))).
Proof.
  intros Hstop. unfold page_antennas, page_exception.
  view_loop_body web search_data max_pages st.
  - by left.
  - right. right. by rewrite Hreq', app_nil_r.
  - right. left. split; [done|]. exists e'. by rewrite Hreq'.
  - right. right. by rewrite Hreq', Hparse', app_nil_r.
  - right. left. split; [done|]. exists ValueError.
    by rewrite Hreq', Hparse', Hnext'.
  - right. right. by rewrite Hreq', Hparse', Hnext'.
  - assert (page_goes_on web search_data max_pages (page_num st) = true);
      [|congruence].
    apply page_goes_on_true. eauto 10.
Qed.

(** A run in closed form: the pages that go on, then the one pass that
    ends the loop, unless the fuel runs out first. *)
Lemma scrape_closed_form (web : portal) (search_data : gmap string form_value)
    (max_pages : option Z) (fuel : nat) :
  ∃ k : nat,
    (k ≤ fuel)%nat
    ∧ (∀ j : nat, (j < k)%nat →
         page_goes_on web search_data max_pages (1 + Z.of_nat j) = true)
    ∧ ((k = fuel
        ∧ _scrape_all_pages fuel web search_data max_pages
          = Unfinished (events_of_pages search_data 1 k))
       ∨ ((k < fuel)%nat
          ∧ page_goes_on web search_data max_pages (1 + Z.of_nat k) = false
          ∧ ((bound_reached max_pages (1 + Z.of_nat k) = true
              ∧ _scrape_all_pages fuel web search_data max_pages
                = Done (antennas_of_pages web search_data 1 k)
                    (events_of_pages search_data 1 k))
             ∨ (bound_reached max_pages (1 + Z.of_nat k) = false
                ∧ ∃ e, e ≠ RequestException
                       ∧ page_exception web search_data (1 + Z.of_nat k) = Some e
                       ∧ _scrape_all_pages fuel web search_data max_pages
                         = Failed e (events_of_pages search_data 1 k
                                     ++ [EvPost (page_form search_data (1 + Z.of_nat k))]))
             ∨ (bound_reached max_pages (1 + Z.of_nat k) = false
                ∧ page_exception web search_data (1 + Z.of_nat k) = None
                ∧ _scrape_all_pages fuel web search_data max_pages
                  = Done (antennas_of_pages web search_data 1 (S k))
                      (events_of_pages search_data 1 k
                       ++ [EvPost (page_form search_data (1 + Z.of_nat k))]))))).
Proof.
  unfold _scrape_all_pages.
  destruct (paging_loop_decompose web search_data max_pages fuel (LoopState 1 [] []))
    as (k & Hk & Hpages & Hend). simpl in Hpages.
  exists k. split_and!; [done|done|].
  destruct Hend as [[-> Hrun]|(Hlt & Hstop & Hrun)]; rewrite Hrun.
  - left. done.
  - right. simpl in Hstop. split_and!; [done|done|].
    set (st := advance web search_data (LoopState 1 [] []) k) in *.
    destruct (loop_body_stop_cases web search_data max_pages st Hstop)
      as [[Hb ->]|[(Hb & e & Hne & Hreq & ->)|(Hb & Hreq & ->)]].
    + left. done.
    + right. left. split; [done|]. exists e. done.
    + right. right. split_and!; [done|done|].
      rewrite (antennas_of_pages_snoc web search_data k 1). reflexivity.
Qed.

Lemma page_form_lookup (search_data : gmap string form_value) (n : Z) (key : string) :
  page_form search_data n !! key
  = if bool_decide (key = "myAction")
    then Some (VStr (if bool_decide (n = 1%Z) then "search" else "page"))
    else if bool_decide (key = "startPage") then Some (VInt n)
    else search_data !! key.
Proof.
  unfold page_form.
  destruct (decide (key = "myAction")) as [->|Hne1].
  - by rewrite lookup_insert_eq.
  - rewrite (bool_decide_eq_false_2 _ Hne1), lookup_insert_ne by done.
    destruct (decide (key = "startPage")) as [->|Hne2].
    + by rewrite lookup_insert_eq.
    + rewrite (bool_decide_eq_false_2 _ Hne2). by rewrite lookup_insert_ne.
Qed.

(** X5. The page requests of a run are those for pages 1, 2, 3, ... in
    this order, each made once, with one pause after each request but
    possibly the last, and nothing else happens: [startPage] is the page
    number, [myAction] is "search" on the first request and "page" on the
    others, and every other field is sent as prepared (a prepared field
    named [startPage] or [myAction] is overridden). *)
Theorem requests_are_consecutive_pages (web : portal)
    (search_data : gmap string form_value) (max_pages : option Z) (fuel : nat) :
  (∃ (k : nat) (last : bool),
     (k ≤ fuel)%nat
     ∧ events_of (_scrape_all_pages fuel web search_data max_pages)
       = events_of_pages search_data 1 k
         ++ (if last then [EvPost (page_form search_data (1 + Z.of_nat k))] else []))
  ∧ (∀ (n : Z) (key : string),
       page_form search_data n !! "startPage" = Some (VInt n)
       ∧ page_form search_data n !! "myAction"
         = Some (VStr (if bool_decide (n = 1%Z) then "search" else "page"))
       ∧ (key ≠ "startPage" → key ≠ "myAction" →
          page_form search_data n !! key = search_data !! key)).
Proof.
  split.
  - destruct (scrape_closed_form web search_data max_pages fuel)
      as (k & Hk & _ & [[-> ->]|(_ & _ & [[_ ->]|[(_ & e & _ & _ & ->)|(_ & _ & ->)]])]).
    + exists fuel, false. by rewrite app_nil_r.
    + exists k, false. by rewrite app_nil_r.
    + exists k, true. done.
    + exists k, true. done.
  - intros n key. rewrite !page_form_lookup. split_and!; [done|done|].
    intros H1 H2. by rewrite !bool_decide_eq_false_2.
Qed.

(** X6. What a run returns is the records of exactly the pages it
    requested, in page order then row order; the pauses are as many as
    the requests, or one fewer. *)
Theorem result_is_pages_requested (web : portal)
    (search_data : gmap string form_value) (max_pages : option Z) (fuel : nat)
    (v : list antenna) (events : list event) :
  _scrape_all_pages fuel web search_data max_pages = Done v events →
  v = antennas_of_pages web search_data 1 (page_requests events)
  ∧ (sleeps events = page_requests events
     ∨ S (sleeps events) = page_requests events).
Proof.
  intros Hdone.
  destruct (scrape_closed_form web search_data max_pages fuel)
    as (k & Hk & _ & [[-> Hrun]|(_ & _ & [[_ Hrun]|[(_ & e & _ & _ & Hrun)|(_ & _ & Hrun)]])]);
    rewrite Hrun in Hdone; try done; injection Hdone as <- <-.
  - destruct (page_requests_events_of_pages search_data k 1) as [-> ->]. by split; [|left].
  - rewrite page_requests_app, sleeps_app.
    destruct (page_requests_events_of_pages search_data k 1) as [-> ->].
    change (page_requests [EvPost (page_form search_data (1 + Z.of_nat k))]) with 1%nat.
    change (sleeps [EvPost (page_form search_data (1 + Z.of_nat k))]) with 0%nat.
    replace (k + 1)%nat with (S k) by lia. split; [done|right; lia].
Qed.


(** X7. The scrape ends at the first page that does not go on. When the
    pages before page [n] go on and page [n] is within the bound, [n]
    passes of the loop suffice, [n] requests and [n - 1] pauses are made,
    and the pass for page [n] decides the outcome: when neither the
    request nor the detector lets an exception through, the run returns
    the records of pages 1 to [n] (those of page [n] included, if it has
    any); when one of them does, that exception leaves the scrape and no
    record is returned. *)
Theorem scrape_ends_at_first_stopping_page (web : portal)
    (search_data : gmap string form_value) (max_pages : option Z) (n : Z)
    (fuel : nat) :
  (1 ≤ n)%Z →
  (∀ j : Z, (1 ≤ j < n)%Z → page_goes_on web search_data max_pages j = true) →
  page_goes_on web search_data max_pages n = false →
  bound_reached max_pages n = false →
  (n ≤ Z.of_nat fuel)%Z →
  (page_exception web search_data n = None →
   _scrape_all_pages fuel web search_data max_pages
   = Done (antennas_of_pages web search_data 1 (Z.to_nat n))
       (events_of_pages search_data 1 (Z.to_nat (n - 1))
        ++ [EvPost (page_form search_data n)]))
  ∧ (∀ e, page_exception web search_data n = Some e →
       _scrape_all_pages fuel web search_data max_pages
       = Failed e (events_of_pages search_data 1 (Z.to_nat (n - 1))
                   ++ [EvPost (page_form search_data n)])).
Proof.
  intros Hn Hpages Hstop Hb Hfuel. unfold _scrape_all_pages.
  replace fuel with (Z.to_nat (n - 1) + S (fuel - Z.to_nat n))%nat by lia.
  rewrite paging_loop_advance.
  2:{ intros j Hj. simpl. apply Hpages. lia. }
  set (st := advance web search_data (LoopState 1 [] []) (Z.to_nat (n - 1))).
  assert (Hpage : page_num st = n) by (simpl; lia).
  rewrite <- Hpage in Hstop, Hb.
  simpl paging_loop.
  destruct (loop_body_stop_cases web search_data max_pages st Hstop)
    as [[Hb' _]|[(_ & e & _ & Hexn & ->)|(_ & Hexn & ->)]]; [congruence| |];
    rewrite Hpage in Hexn |- *; rewrite Hexn.
  - split; [done|]. by intros e' [= <-].
  - split; [|done]. intros _.
    replace (Z.to_nat n) with (S (Z.to_nat (n - 1))) by lia.
    rewrite (antennas_of_pages_snoc web search_data (Z.to_nat (n - 1)) 1).
    replace (1 + Z.of_nat (Z.to_nat (n - 1)))%Z with n by lia.
    reflexivity.
Qed.

(** X8. A bound [max_pages = m] of at least one page is kept: a run makes
    at most [m] requests and returns the records of at most [m] pages.
    When the first [m] pages all go on, the run returns the records of
    exactly those pages after [m] requests, each followed by a pause, the
    last pause included. *)
Theorem max_pages_limits_pages (web : portal)
    (search_data : gmap string form_value) (m : Z) :
  (1 ≤ m)%Z →
  (∀ fuel : nat,
     (Z.of_nat (page_requests
                  (events_of (_scrape_all_pages fuel web search_data (Some m)))) ≤ m)%Z
     ∧ (∀ v events,
          _scrape_all_pages fuel web search_data (Some m) = Done v events →
          ∃ k : nat, (Z.of_nat k ≤ m)%Z ∧ v = antennas_of_pages web search_data 1 k))
  ∧ ((∀ j : Z, (1 ≤ j ≤ m)%Z → page_goes_on web search_data (Some m) j = true) →
     ∀ fuel : nat, (m < Z.of_nat fuel)%Z →
       _scrape_all_pages fuel web search_data (Some m)
       = Done (antennas_of_pages web search_data 1 (Z.to_nat m))
           (events_of_pages search_data 1 (Z.to_nat m))).
Proof.
  intros Hm. split.
  - intros fuel.
    assert (Hwithin : ∀ j : Z, bound_reached (Some m) j = false → (j ≤ m)%Z).
    { intros j. unfold bound_reached.
      rewrite bool_decide_eq_false_2 by lia. simpl.
      intros Hb%bool_decide_eq_false. lia. }
    destruct (scrape_closed_form web search_data (Some m) fuel)
      as (k & Hk & Hpages & Hend).
    assert (Hkm : (Z.of_nat k ≤ m)%Z).
    { destruct k as [|k]; [lia|].
      specialize (Hpages k ltac:(lia)).
      apply page_goes_on_true in Hpages as [Hb%Hwithin _]. lia. }
    destruct (page_requests_events_of_pages search_data k 1) as [Hcount _].
    destruct Hend as [[-> ->]|(_ & _ & [[_ ->]|[(Hb%Hwithin & e & _ & _ & ->)
                                               |(Hb%Hwithin & _ & ->)]])];
      simpl events_of; rewrite ?page_requests_app, ?Hcount;
      try change (page_requests [EvPost (page_form search_data (1 + Z.of_nat k))])
        with 1%nat.
    + split; [lia|done].
    + split; [lia|]. intros v events [= <- <-]. by exists k.
    + split; [lia|done].
    + split; [lia|]. intros v events [= <- <-]. exists (S k). split; [lia|done].
  - intros Hpages fuel Hfuel. unfold _scrape_all_pages.
    replace fuel with (Z.to_nat m + S (fuel - Z.to_nat m - 1))%nat by lia.
    rewrite paging_loop_advance.
    2:{ intros j Hj. simpl. apply Hpages. lia. }
    simpl paging_loop. unfold loop_body.
    rewrite page_num_advance. simpl page_num.
    assert (Hb : bound_reached (Some m) (1 + Z.of_nat (Z.to_nat m)) = true).
    { unfold bound_reached. rewrite bool_decide_eq_false_2 by lia.
      rewrite bool_decide_eq_true_2 by lia. done. }
    rewrite Hb. reflexivity.
Qed.

Lemma page_goes_on_endless_unbounded (search_data : gmap string form_value) (n : Z) :
  page_goes_on portal_endless search_data None n = true.
Proof.
  apply page_goes_on_true. split; [done|].
  exists (Response 200 endless_page), (record_of "1001"), [].
  split_and!; [done|by vm_compute|by vm_compute].
Qed.

(** X9. Nothing but the portal ends an unbounded scrape: when every page
    goes on, the loop never returns; after any number of passes it is
    still running and has made one request per pass. *)
Theorem scrape_runs_while_pages_go_on (web : portal)
    (search_data : gmap string form_value) (max_pages : option Z) :
  (∀ j : Z, (1 ≤ j)%Z → page_goes_on web search_data max_pages j = true) →
  ∀ fuel : nat,
    _scrape_all_pages fuel web search_data max_pages
    = Unfinished (events_of_pages search_data 1 fuel)
    ∧ page_requests (events_of (_scrape_all_pages fuel web search_data max_pages))
      = fuel.
Proof.
  intros Hpages fuel.
  assert (Hrun : _scrape_all_pages fuel web search_data max_pages
                 = Unfinished (events_of_pages search_data 1 fuel)).
  { unfold _scrape_all_pages.
    replace fuel with (fuel + 0)%nat at 1 by lia.
    rewrite paging_loop_advance; [done|].
    intros j _. apply Hpages. simpl. lia. }
  split; [done|]. rewrite Hrun. simpl. apply page_requests_events_of_pages.
Qed.


(** ** Resolving the municipality *)

(** X10. [_find_municipality_value] returns the value of the first
    option, in the order of the options, whose name matches the query in
    either direction, and [None] exactly when no option matches. A name
    that is among the options always resolves (to the first option that
    matches it, which need not be that one), and when lower-casing keeps
    the empty string empty the empty query resolves to the first option. *)
Theorem find_municipality_first_match (lower : string → string) (query : string)
    (options : list (string * string)) :
  (∀ v, _find_municipality_value lower query options = Some v ↔
     ∃ before name after,
       options = before ++ (name, v) :: after
       ∧ name_matches lower query name = true
       ∧ Forall (λ o, name_matches lower query o.1 = false) before)
  ∧ (_find_municipality_value lower query options = None ↔
       Forall (λ o, name_matches lower query o.1 = false) options)
  ∧ (∀ v, (query, v) ∈ options →
       is_Some (_find_municipality_value lower query options))
  ∧ (lower "" = "" → ∀ name v rest, options = (name, v) :: rest →
       _find_municipality_value lower "" options = Some v).
Proof.
  assert (Hnone : ∀ opts,
    _find_municipality_value lower query opts = None ↔
      Forall (λ o, name_matches lower query o.1 = false) opts).
  { induction opts as [|[name v] opts IH]; simpl; [done|].
    fold (name_matches lower query name).
    destruct (name_matches lower query name) eqn:Hm.
    - split; [done|]. intros Hall. inversion Hall; simplify_eq/=. congruence.
    - rewrite IH. split; [by constructor|]. intros Hall. by inversion Hall. }
  split_and!.
  - intros v. induction options as [|[name v'] opts IH]; simpl.
    + split; [done|]. intros (before & name & after & Heq & _).
      by destruct before.
    + fold (name_matches lower query name).
      destruct (name_matches lower query name) eqn:Hm.
      * split.
        -- intros [= ->]. by exists [], name, opts.
        -- intros ([|[name0 v0] before] & name' & after & Heq & Hm' & Hbefore).
           ++ by simplify_eq/=.
           ++ simplify_eq/=. inversion Hbefore; simplify_eq/=. congruence.
      * rewrite IH. split.
        -- intros (before & name' & after & -> & Hm' & Hbefore).
           exists ((name, v') :: before), name', after.
           split_and!; [done|done|by constructor].
        -- intros ([|[name0 v0] before] & name' & after & Heq & Hm' & Hbefore).
           ++ simplify_eq/=. congruence.
           ++ simplify_eq/=. inversion Hbefore; simplify_eq/=.
              by exists before, name', after.
  - apply Hnone.
  - intros v Hin.
    destruct (_find_municipality_value lower query options) eqn:Hfind; [eauto|].
    apply Hnone in Hfind. rewrite Forall_forall in Hfind.
    specialize (Hfind _ Hin). simpl in Hfind.
    unfold name_matches in Hfind. by rewrite contains_refl in Hfind.
  - intros Hlower name v rest ->. simpl. rewrite Hlower.
    by rewrite contains_empty.
Qed.

Lemma find_municipality_first_match_witness :
  _find_municipality_value (fun s => s) ""
    [("Αθηναίων", "7"); ("Χαλκιδέων", "12")] = Some "7".
Proof.
  apply (proj2 (proj2 (proj2 (find_municipality_first_match (fun s => s) ""
           [("Αθηναίων", "7"); ("Χαλκιδέων", "12")])))
           eq_refl "Αθηναίων" "7" [("Χαλκιδέων", "12")] eq_refl).
Defined.

Example find_municipality_prefers_order :
  _find_municipality_value (fun s => s) "Αθηναίων"
    [("Νέων Αθηναίων", "5"); ("Αθηναίων", "1")] = Some "5"
  ∧ _find_municipality_value (fun s => s) "Δήμος Χαλκιδέων Ευβοίας"
      [("Αθηναίων", "1"); ("Χαλκιδέων", "12")] = Some "12"
  ∧ _find_municipality_value (fun s => s) "Πατρέων"
      [("Αθηναίων", "1"); ("Χαλκιδέων", "12")] = None.
Proof. vm_compute. done. Qed.

(** ** The option list and the form *)

Lemma dict_set_keys (d : list (string * string)) (k v : string) :
  NoDup d.*1 →
  NoDup (dict_set d k v).*1
  ∧ ∀ k' v', (k', v') ∈ dict_set d k v ↔
             (k' = k ∧ v' = v) ∨ (k' ≠ k ∧ (k', v') ∈ d).
Proof.
  induction d as [|[k0 v0] d IH]; intros Hnodup; simpl.
  - split; [apply NoDup_singleton|]. intros k' v'.
    rewrite list_elem_of_singleton. split.
    + intros [= -> ->]. by left.
    + intros [[-> ->]|[_ Hin]]; [done|by apply elem_of_nil in Hin].
  - apply NoDup_cons in Hnodup as [Hk0 Hnodup]. simpl in Hk0.
    destruct (IH Hnodup) as [IHnodup IHin].
    destruct (String.eqb_spec k0 k) as [->|Hne]; simpl.
    + split; [by apply NoDup_cons|]. intros k' v'.
      rewrite !elem_of_cons. split.
      * intros [[= -> ->]|Hin]; [by left|]. right. split; [|by right].
        intros ->. apply Hk0. apply list_elem_of_fmap. by exists (k, v').
      * intros [[-> ->]|[Hne [[= -> ->]|Hin]]]; [by left|done|by right].
    + split.
      * apply NoDup_cons. split; [|done].
        intros ([k1 v1] & Heq & Hin)%list_elem_of_fmap. simpl in Heq. subst k1.
        apply IHin in Hin as [[-> _]|[_ Hin]]; [done|].
        apply Hk0. apply list_elem_of_fmap. by exists (k0, v1).
      * intros k' v'. rewrite !elem_of_cons, IHin. split.
        -- intros [[= -> ->]|[[-> ->]|[Hne' Hin]]].
           ++ right. split; [done|by left].
           ++ by left.
           ++ right. split; [done|by right].
        -- intros [[-> ->]|[Hne' [[= -> ->]|Hin]]].
           ++ right. by left.
           ++ by left.
           ++ right. right. done.
Qed.

Lemma collect_options_snoc (tags : list option_tag) (t : option_tag) :
  collect_options (tags ++ [t])
  = if option_kept t
    then dict_set (collect_options tags) (option_text t) (option_value t)
    else collect_options tags.
Proof.
  unfold collect_options, option_kept. rewrite fold_left_app. simpl.
  destruct (option_value t) as [|c s]; [done|].
  destruct (option_text t); done.
Qed.

(** The options kept, as a dictionary: names without repetition, and
    under each name the value of the last kept option that carries it. *)
Lemma collect_options_spec (tags : list option_tag) :
  NoDup (collect_options tags).*1
  ∧ ∀ name v, (name, v) ∈ collect_options tags ↔
      ∃ pre post, tags = pre ++ OptionTag v name :: post
                  ∧ option_kept (OptionTag v name) = true
                  ∧ Forall (λ t, option_kept t = true → option_text t ≠ name) post.
Proof.
  induction tags as [|t tags [IHnodup IHin]] using rev_ind.
  - split; [constructor|]. intros name v. split.
    + intros Hin. by apply elem_of_nil in Hin.
    + intros (pre & post & Heq & _). by destruct pre.
  - rewrite collect_options_snoc.
    destruct (option_kept t) eqn:Hkept.
    + destruct (dict_set_keys (collect_options tags) (option_text t) (option_value t)
                  IHnodup) as [Hnodup Hin].
      split; [done|]. intros name v. rewrite Hin, IHin. split.
      * intros [[-> ->]|[Hne (pre & post & -> & Hk & Hpost)]].
        -- exists tags, []. destruct t as [tv tt]. simpl. split_and!; [done|done|constructor].
        -- exists pre, (post ++ [t]). rewrite <- app_assoc. split_and!; [done|done|].
           apply Forall_app. split; [done|]. constructor; [|constructor]. done.
      * intros (pre & post & Heq & Hk & Hpost).
        destruct post as [|t' post _] using rev_ind.
        -- apply app_inj_tail in Heq as [-> ->]. by left.
        -- rewrite app_comm_cons, app_assoc in Heq.
           apply app_inj_tail in Heq as [-> ->].
           apply Forall_app in Hpost as [Hpost Ht]. inversion Ht; simplify_eq/=.
           right. split; [intros ->; by apply H1|]. eauto.
    + split; [done|]. intros name v. rewrite IHin. split.
      * intros (pre & post & -> & Hk & Hpost).
        exists pre, (post ++ [t]). rewrite <- app_assoc. split_and!; [done|done|].
        apply Forall_app. split; [done|]. constructor; [|constructor]. congruence.
      * intros (pre & post & Heq & Hk & Hpost).
        destruct post as [|t' post _] using rev_ind.
        -- apply app_inj_tail in Heq as [-> ->]. congruence.
        -- rewrite app_comm_cons, app_assoc in Heq.
           apply app_inj_tail in Heq as [-> ->].
           apply Forall_app in Hpost as [Hpost _]. eauto.
Qed.



Example municipality_options_repeats :
  get_municipality_options portal_repeats 0
  = Ok [("Αθηναίων", "8"); ("Χαλκιδέων", "12")].
Proof. vm_compute. reflexivity. Qed.

Lemma add_hidden_inputs_snoc (inputs : list hidden_input) (h : hidden_input)
    (d : gmap string form_value) :
  add_hidden_inputs (inputs ++ [h]) d
  = match input_name h with
    | Some name =>
        if nonempty name
        then <[name := VStr (input_value h)]> (add_hidden_inputs inputs d)
        else add_hidden_inputs inputs d
    | None => add_hidden_inputs inputs d
    end.
Proof. unfold add_hidden_inputs. by rewrite fold_left_app. Qed.

Lemma add_hidden_inputs_lookup (inputs : list hidden_input)
    (d : gmap string form_value) (key : string) :
  add_hidden_inputs inputs d !! key
  = match last_hidden_value key inputs with
    | Some value => Some (VStr value)
    | None => d !! key
    end.
Proof.
  unfold last_hidden_value.
  induction inputs as [|h inputs IH] using rev_ind; [done|].
  rewrite add_hidden_inputs_snoc, List.filter_app. simpl.
  unfold hidden_named at 2.
  destruct (input_name h) as [name|] eqn:Hname.
  - destruct (decide (name = key)) as [->|Hne].
    + rewrite bool_decide_eq_true_2 by done. simpl.
      destruct (nonempty key) eqn:Hkey.
      * rewrite last_snoc. simpl. by rewrite lookup_insert_eq.
      * by rewrite app_nil_r.
    + rewrite bool_decide_eq_false_2 by congruence. simpl. rewrite app_nil_r.
      destruct (nonempty name); [|done]. by rewrite lookup_insert_ne.
  - rewrite bool_decide_eq_false_2 by done. simpl. by rewrite app_nil_r.
Qed.

Lemma base_search_data_lookup (municipality_value key : string) :
  base_search_data municipality_value !! key
  = if bool_decide (key = "municipality") then Some (VStr municipality_value)
    else if bool_decide (key = "address" ∨ key = "siteId") then Some (VStr "")
    else None.
Proof.
  unfold base_search_data.
  destruct (decide (key = "siteId")) as [->|H1].
  { by rewrite lookup_insert_eq. }
  rewrite lookup_insert_ne by done.
  destruct (decide (key = "municipality")) as [->|H2].
  { by rewrite lookup_insert_eq. }
  rewrite lookup_insert_ne by done. rewrite (bool_decide_eq_false_2 _ H2).
  destruct (decide (key = "address")) as [->|H3].
  { by rewrite lookup_insert_eq. }
  rewrite lookup_insert_ne by done. rewrite lookup_empty.
  rewrite bool_decide_eq_false_2; [done|]. by intros [?|?].
Qed.



Example prepared_form_repeats :
  _prepare_search_data portal_repeats 0 "12"
  = Ok (Some (<["token" := VStr "def"]>
                (<["municipality" := VStr "99"]> (base_search_data "12")))).
Proof. vm_compute. reflexivity. Qed.

(** ** Before the first page request *)

Lemma get_municipality_options_values (web : portal) (k : nat)
    (options : list (string * string)) :
  get_municipality_options web k = Ok options →
  ∀ name v, (name, v) ∈ options → nonempty v = true.
Proof.
  unfold get_municipality_options. intros Hget name v Hin.
  destruct (session_get web k) as [resp|e]; simpl in Hget.
  2:{ destruct e; simplify_eq/=. by apply elem_of_nil in Hin. }
  unfold raise_for_status in Hget. case_bool_decide; simpl in Hget.
  { simplify_eq/=. by apply elem_of_nil in Hin. }
  destruct (municipality_select (content resp)) as [tags|]; simplify_eq/=.
  2:{ by apply elem_of_nil in Hin. }
  apply collect_options_spec in Hin as (_ & _ & _ & Hkept & _).
  unfold option_kept in Hkept. simpl in Hkept. by destruct v.
Qed.

Lemma find_municipality_value_elem_of (lower : string → string) (query : string)
    (options : list (string * string)) (v : string) :
  _find_municipality_value lower query options = Some v →
  ∃ name, (name, v) ∈ options.
Proof.
  induction options as [|[name v'] options IH]; simpl; [done|].
  destruct (contains (lower query) (lower name)
            || contains (lower name) (lower query)).
  - intros [= ->]. exists name. by left.
  - intros [name' Hin]%IH. exists name'. by right.
Qed.

Lemma prepare_search_data_nonempty (web : portal) (k : nat) (v : string)
    (search_data : gmap string form_value) :
  _prepare_search_data web k v = Ok (Some search_data) → search_data ≠ ∅.
Proof.
  unfold _prepare_search_data.
  destruct (session_get web k) as [resp|e]; simpl; [|destruct e; done].
  unfold raise_for_status. case_bool_decide; simpl; [done|].
  intros [= <-] Hempty.
  pose proof (add_hidden_inputs_lookup (hidden_inputs (content resp))
                (base_search_data v) "address") as Hlookup.
  rewrite Hempty, lookup_empty, base_search_data_lookup in Hlookup.
  by destruct (last_hidden_value "address" (hidden_inputs (content resp))).
Qed.

(** X13. [search_municipality] starts with a fetch of the search page.
    When no option matches the name it returns the empty list after that
    one fetch; when the name resolves but the form cannot be fetched it
    returns the empty list after two fetches; in both cases no page is
    requested. When the name resolves and the form is fetched, the paging
    loop is always entered with that form: the checks for an empty value
    and an empty form never fire. *)
Theorem search_before_paging (lower : string → string) (web : portal)
    (name : string) (max_pages : option Z) (fuel : nat) :
  (∃ events, events_of (search_municipality lower fuel web name max_pages)
             = EvGet :: events)
  ∧ (∀ options, get_municipality_options web 0 = Ok options →
       _find_municipality_value lower name options = None →
       search_municipality lower fuel web name max_pages = Done [] [EvGet])
  ∧ (∀ options v, get_municipality_options web 0 = Ok options →
       _find_municipality_value lower name options = Some v →
       _prepare_search_data web 1 v = Ok None →
       search_municipality lower fuel web name max_pages = Done [] [EvGet; EvGet])
  ∧ (∀ options v search_data, get_municipality_options web 0 = Ok options →
       _find_municipality_value lower name options = Some v →
       _prepare_search_data web 1 v = Ok (Some search_data) →
       search_municipality lower fuel web name max_pages
       = prepend_events [EvGet; EvGet]
           (_scrape_all_pages fuel web search_data max_pages)).
Proof.
  unfold search_municipality. split_and!.
  - destruct (get_municipality_options web 0) as [options|e]; [|by eexists].
    destruct (_find_municipality_value lower name options) as [v|]; [|by eexists].
    destruct (nonempty v); simpl; [|by eexists].
    destruct (_prepare_search_data web 1 v) as [[sd|]|e]; try by eexists.
    case_bool_decide; [by eexists|].
    destruct (_scrape_all_pages fuel web sd max_pages); by eexists.
  - by intros options -> ->.
  - intros options v Hget Hfind Hprep. rewrite Hget, Hfind.
    destruct (find_municipality_value_elem_of lower name options v Hfind) as [n Hin].
    rewrite (get_municipality_options_values web 0 options Hget n v Hin). simpl.
    by rewrite Hprep.
  - intros options v search_data Hget Hfind Hprep. rewrite Hget, Hfind.
    destruct (find_municipality_value_elem_of lower name options v Hfind) as [n Hin].
    rewrite (get_municipality_options_values web 0 options Hget n v Hin). simpl.
    rewrite Hprep.
    rewrite bool_decide_eq_false_2; [done|].
    by eapply prepare_search_data_nonempty.
Qed.


(** ** Header maps and extraction, continued *)

Lemma header_key_field (text k : string) :
  header_key text = Some k → k ∈ field_names.
Proof.
  unfold header_key, field_names.
  repeat (match goal with
          | |- context [if ?b then _ else _] => destruct b
          end); intros [= <-]; set_solver.
Qed.

(** X14. A header map holds nothing but the six field names, each with
    the index of a cell of the header row, so every index in it is below
    the number of header cells; and each field that some header cell is
    assigned to is in the map. *)
Theorem header_map_entries (header_row : list cell) :
  (∀ k i, _map_table_headers header_row !! k = Some i →
     k ∈ field_names ∧ (i < length header_row)%nat
     ∧ ∃ c, header_row !! i = Some c ∧ header_key (get_text c) = Some k)
  ∧ (∀ c k, c ∈ header_row → header_key (get_text c) = Some k →
       is_Some (_map_table_headers header_row !! k))
  ∧ (size (_map_table_headers header_row) ≤ 6)%nat.
Proof.
  assert (Hentries : ∀ k i, _map_table_headers header_row !! k = Some i →
     k ∈ field_names ∧ (i < length header_row)%nat
     ∧ ∃ c, header_row !! i = Some c ∧ header_key (get_text c) = Some k).
  { intros k i Hk. pose proof (header_map_index_in_row header_row k i Hk) as Hlt.
    apply map_table_headers_lookup in Hk as (c & Hi & Hc & _).
    split_and!; [by eapply header_key_field|done|eauto]. }
  split_and!; [done| |].
  - intros c k Hin Hc. apply header_map_is_Some. eauto.
  - assert (Hdom : dom (_map_table_headers header_row)
                   ⊆ (list_to_set field_names : gset string)).
    { intros k [i Hi]%elem_of_dom. apply Hentries in Hi as [Hk _].
      by apply elem_of_list_to_set. }
    apply subseteq_size in Hdom. rewrite size_dom in Hdom.
    etrans; [exact Hdom|]. by vm_compute.
Qed.

Lemma required_cell_result (cells : list cell) (header_map : gmap string nat)
    (k : string) :
  required_cell cells header_map k
  = match header_map !! k with
    | None => Raise KeyError
    | Some i =>
        match cells !! i with
        | Some c => Ok (get_text c)
        | None => Raise IndexError
        end
    end.
Proof.
  unfold required_cell, dict_getitem, list_getitem.
  destruct (header_map !! k) as [i|]; simpl; [|done].
  by destruct (cells !! i).
Qed.

Lemma optional_cell_result (cells : list cell) (header_map : gmap string nat)
    (k : string) :
  optional_cell cells header_map k
  = match header_map !! k with
    | None => Ok ""
    | Some i =>
        match cells !! i with
        | Some c => Ok (get_text c)
        | None => Raise IndexError
        end
    end.
Proof.
  unfold optional_cell, dict_in, dict_get, list_getitem.
  destruct (header_map !! k) as [i|]; simpl; [|done].
  by destruct (cells !! i).
Qed.

(** X15. [_extract_antenna_data] on its own returns a record exactly when
    the header map is valid and every field in it has its index inside
    the row; the record is then the one read column by column, with the
    empty string for an optional field that is not in the map. Otherwise
    it raises [KeyError] or [IndexError], nothing else. *)
Theorem extract_antenna_data_succeeds_iff (cells : list cell)
    (header_map : gmap string nat) :
  ((∃ a, _extract_antenna_data cells header_map = Ok a) ↔
     _validate_header_map header_map = true
     ∧ ∀ k i, k ∈ field_names → header_map !! k = Some i →
              (i < length cells)%nat)
  ∧ (∀ a, _extract_antenna_data cells header_map = Ok a →
          a = row_record header_map cells)
  ∧ (∀ e, _extract_antenna_data cells header_map = Raise e →
          e = KeyError ∨ e = IndexError).
Proof.
  unfold _extract_antenna_data, row_record, field_text.
  rewrite !required_cell_result, !optional_cell_result.
  rewrite validate_header_map_iff. unfold field_names.
  destruct (header_map !! "sequence") as [i1|] eqn:H1;
  destruct (header_map !! "position_code") as [i2|] eqn:H2;
  destruct (header_map !! "category") as [i3|] eqn:H3;
  destruct (header_map !! "company") as [i4|] eqn:H4;
  destruct (header_map !! "address") as [i5|] eqn:H5;
  destruct (header_map !! "municipality") as [i6|] eqn:H6; simpl;
  repeat (match goal with
          | |- context [cells !! ?i] =>
              let E := fresh "E" in destruct (cells !! i) eqn:E; simpl
          end);
  (split_and!;
   [ split;
     [ intros [a Ha]; try discriminate Ha;
       (split; [split_and!; eauto|]);
       intros k i Hk Hi;
       repeat (apply elem_of_cons in Hk as [->|Hk];
               [simplify_eq; by eapply lookup_lt_Some|]);
       by apply elem_of_nil in Hk
     | intros [(Hp & Hc & Ha & Hm) Hrange];
       try (by destruct Hp); try (by destruct Hc);
       try (by destruct Ha); try (by destruct Hm);
       try (by eexists);
       exfalso;
       repeat match goal with
              | E : cells !! ?i = None |- _ =>
                  apply lookup_ge_None in E
              end;
       repeat match goal with
              | H : header_map !! ?k = Some ?i |- _ =>
                  let Hlt := fresh "Hlt" in
                  assert (Hlt : (i < length cells)%nat)
                    by (apply (Hrange k i); [set_solver|done]);
                  revert H
              end; lia ]
   | intros a Ha; by simplify_eq
   | intros e He; simplify_eq; eauto ]).
Qed.

(** ** The page number of a click action *)

Lemma decimal_values_total (d : list N) :
  Forall (fun c => is_decimal c = true) d → ∃ ds, decimal_values d = Some ds.
Proof.
  induction 1 as [|c d Hc _ [ds IH]]; simpl; [by eexists|].
  unfold is_decimal in Hc. destruct (decimal_value py c); [|done].
  rewrite IH. by eexists.
Qed.

Lemma assignment_at_decimals (s d : list N) :
  assignment_at s d → d ≠ [] ∧ Forall (fun c => is_decimal c = true) d.
Proof. by intros (r & _ & [(r1 & _ & (? & ? & _))|[_ (? & ? & _)]]). Qed.

Lemma re_search_startPage_no_assignment (s : list N) :
  re_search_startPage s = None →
  ∀ pre rest d, s = pre ++ rest → ¬ assignment_at rest d.
Proof.
  induction s as [|c s IH]; rewrite re_search_startPage_unfold;
    intros Hre pre rest d Hs Ha.
  - symmetry in Hs. apply app_eq_nil in Hs as [-> ->].
    apply match_startPage_spec in Ha. by rewrite Ha in Hre.
  - destruct (match_startPage (c :: s)) eqn:Hm; [done|].
    destruct pre as [|c' pre].
    + simpl in Hs. subst rest. apply match_startPage_spec in Ha. congruence.
    + injection Hs as <- Hs. by apply (IH Hre pre rest d).
Qed.

(** X16. The page number the detector reads from a click action is the
    one of the leftmost place where the label [startPage.value=] is
    followed by a run of decimal digits, a quote between them or none:
    the whole run when it follows the label or the quote, up to the first
    character that is no decimal digit. There is no match exactly when
    no place of the action starts such an assignment. A matched number is
    a run of one or more decimal digits, so [int] converts it unless the
    conversion limit rejects it. *)
Theorem startPage_number_leftmost (action : list N) :
  (∀ d, re_search_startPage action = Some d ↔
        ∃ pre rest, action = pre ++ rest
                    ∧ assignment_at rest d
                    ∧ ∀ pre' rest' d', action = pre' ++ rest' →
                                       (length pre' < length pre)%nat →
                                       ¬ assignment_at rest' d')
  ∧ (re_search_startPage action = None ↔
       ∀ pre rest d, action = pre ++ rest → ¬ assignment_at rest d)
  ∧ (∀ d, re_search_startPage action = Some d →
       d ≠ [] ∧ Forall (fun c => is_decimal c = true) d
       ∧ ∃ ds, decimal_values d = Some ds
               ∧ int d = (if within_int_limit py ds then Ok (number_of ds)
                          else Raise ValueError)).
Proof.
  split_and!.
  - intros d. apply re_search_startPage_spec.
  - split; [apply re_search_startPage_no_assignment|].
    intros Hnone. apply re_search_startPage_None.
    intros d (pre & rest & Hs & Ha & _). by destruct (Hnone pre rest d).
  - intros d (pre & rest & _ & Ha & _)%re_search_startPage_spec.
    apply assignment_at_decimals in Ha as [Hne Hall]. split_and!; [done|done|].
    destruct (decimal_values_total d Hall) as [ds Hds]. exists ds. split; [done|].
    unfold int. destruct d as [|c d]; [done|]. by rewrite Hds.
Qed.

End Interpreter.

(** ** Runs on sample pages *)

Example re_search_ex1 :
  re_search_startPage sample_py
    (code_points "document.f.startPage.value='12';submit()")
  = Some (code_points "12").
Proof. vm_compute. reflexivity. Qed.

Example re_search_ex2 :
  re_search_startPage sample_py (code_points "startPage.value='';startPage.value=7")
  = Some (code_points "7").
Proof. vm_compute. reflexivity. Qed.

Example int_ex : int sample_py (code_points "120") = Ok 120%Z.
Proof. vm_compute. reflexivity. Qed.

(** Digits outside ASCII: the Arabic-Indic three is a decimal digit, the
    superscript two is a digit that [int] rejects. *)
Example code_points_ex :
  code_points "٣" = [1635%N] ∧ code_points "²" = [178%N]
  ∧ code_points "Next" = [78%N; 101%N; 120%N; 116%N].
Proof. vm_compute. done. Qed.

Example isdigit_int_ex :
  isdigit sample_py (code_points "٣") = true
  ∧ int sample_py (code_points "٣") = Ok 3%Z
  ∧ int sample_py (code_points "1٣") = Ok 13%Z
  ∧ isdigit sample_py (code_points "²") = true
  ∧ int sample_py (code_points "²") = Raise ValueError
  ∧ isdigit sample_py (code_points "") = false
  ∧ isdigit sample_py (code_points "12a") = false.
Proof. vm_compute. done. Qed.


(** ** The detector on sample controls *)

Lemma has_next_page_signals_witness :
  _has_next_page sample_py
    (results_page [] (Some [current_page_item "1"; page_link "2"])) 1
  = Ok true.
Proof.
  apply (proj2 (has_next_page_signals sample_py
                  (results_page [] (Some [current_page_item "1"; page_link "2"])) 1)
           [current_page_item "1"; page_link "2"] eq_refl).
  - intros item Hin. rewrite text_rejected_int, assignment_rejected_int.
    apply elem_of_cons in Hin as [->|Hin];
      [|apply elem_of_cons in Hin as [->|Hin]; [|by apply elem_of_nil in Hin]];
      (split;
       [ intros (a & Ha & _ & Hi); vm_compute in Ha; injection Ha as <-;
         vm_compute in Hi; discriminate Hi
       | intros (a & d & Ha & Hd & Hi); vm_compute in Ha; injection Ha as <-;
         vm_compute in Hd; try discriminate Hd; injection Hd as <-;
         vm_compute in Hi; discriminate Hi ]).
  - exists (page_link "2"). split.
    + apply elem_of_cons. right. apply elem_of_cons. by left.
    + right. left. apply signal_page_number_int. eexists _, 2%Z.
      split_and!; [reflexivity|by vm_compute|lia].
Defined.

(** C6, as the specification words it, fails: the second link of the
    only item carries a later page number, and the detector, which reads
    the first link alone, answers false. *)
Lemma has_next_page_reads_first_link_only :
  _has_next_page sample_py (results_page [] (Some [item_two_links])) 2 = Ok false
  ∧ (∃ item, item ∈ [item_two_links]
             ∧ (signal_next item ∨ spec_signal_page_number sample_py item 2
                ∨ spec_signal_onclick sample_py item 2))
  ∧ ¬ (∀ (page : soup) (n : Z) (items : list li),
         pagination_ul page = Some items →
         (_has_next_page sample_py page n = Ok true ↔
            ∃ item, item ∈ items
                    ∧ (signal_next item ∨ spec_signal_page_number sample_py item n
                       ∨ spec_signal_onclick sample_py item n))).
Proof.
  assert (Hsig : ∃ item, item ∈ [item_two_links]
             ∧ (signal_next item ∨ spec_signal_page_number sample_py item 2
                ∨ spec_signal_onclick sample_py item 2)).
  { exists item_two_links. split; [by left|]. right. left.
    exists (ATag "5" ""). split.
    - apply elem_of_cons. right. apply elem_of_cons. by left.
    - exists 5%Z. split; [|lia]. apply int_Ok. by vm_compute. }
  split_and!; [by vm_compute|done|].
  intros Hspec.
  apply (Hspec (results_page [] (Some [item_two_links])) 2%Z [item_two_links] eq_refl)
    in Hsig.
  vm_compute in Hsig. discriminate Hsig.
Qed.

Example has_next_page_examples :
  _has_next_page sample_py
    (results_page [] (Some [page_link "1"; current_page_item "2"])) 2 = Ok false
  ∧ _has_next_page sample_py (results_page [] (Some [Li "Next" ["disabled"] []])) 1
    = Ok false
  ∧ _has_next_page sample_py (results_page [] (Some [Li "Επόμενη" [] []])) 1 = Ok true
  ∧ _has_next_page sample_py
      (results_page [] (Some [Li "" [] [ATag "»" "startPage.value=3"]])) 2
    = Ok true
  ∧ _has_next_page sample_py (results_page [] None) 1 = Ok false.
Proof. vm_compute. done. Qed.

(** Digits outside ASCII: an Arabic-Indic three counts as the number 3,
    in the text and in the click action; a superscript two passes
    [isdigit] and makes [int], and with it the detector, raise, also
    when a later item would have shown a signal. *)
Example has_next_page_unicode_digits :
  _has_next_page sample_py (results_page [] (Some [Li "" [] [ATag "٣" ""]])) 2 = Ok true
  ∧ _has_next_page sample_py
      (results_page [] (Some [Li "" [] [ATag "»" "startPage.value='٣'"]])) 2
    = Ok true
  ∧ _has_next_page sample_py
      (results_page [] (Some [Li "" [] [ATag "»" "startPage.value=1٣"]])) 12
    = Ok true
  ∧ _has_next_page sample_py (results_page [] (Some [superscript_item])) 1
    = Raise ValueError
  ∧ _has_next_page sample_py
      (results_page [] (Some [superscript_item; Li "Next" [] []])) 1
    = Raise ValueError
  ∧ _has_next_page sample_py
      (results_page [] (Some [Li "Next" [] []; superscript_item])) 1
    = Ok true.
Proof. vm_compute. done. Qed.


Example scrape_two_pages :
  _scrape_all_pages sample_py 5 portal_two_pages ∅ None
  = Done [record_of "1001"; record_of "1002"; record_of "1003"]
      [EvPost (page_form ∅ 1); EvSleep; EvPost (page_form ∅ 2); EvSleep;
       EvPost (page_form ∅ 3)].
Proof. vm_compute. reflexivity. Qed.

Example scrape_two_pages_bound :
  _scrape_all_pages sample_py 5 portal_two_pages ∅ (Some 1%Z)
  = Done [record_of "1001"; record_of "1002"] [EvPost (page_form ∅ 1); EvSleep].
Proof. vm_compute. reflexivity. Qed.

Example scrape_failing :
  _scrape_all_pages sample_py 5 (portal_failing (Raise RequestException)) ∅ None
  = Done [record_of "1001"] [EvPost (page_form ∅ 1); EvSleep; EvPost (page_form ∅ 2)]
  ∧   _scrape_all_pages sample_py 5 (portal_failing (Ok (Response 503 endless_page))) ∅ None
  = Done [record_of "1001"] [EvPost (page_form ∅ 1); EvSleep; EvPost (page_form ∅ 2)].
Proof. vm_compute. done. Qed.

Example search_two_pages :
  search_municipality sample_py (fun s => s) 5 portal_two_pages "Χαλκιδέων" None
  = Done [record_of "1001"; record_of "1002"; record_of "1003"]
      (let sd := <["token" := VStr "abc"]> (base_search_data "12") in
       [EvGet; EvGet; EvPost (page_form sd 1); EvSleep; EvPost (page_form sd 2);
        EvSleep; EvPost (page_form sd 3)]).
Proof. vm_compute. reflexivity. Qed.

Lemma empty_page_ends_scrape_witness :
  _scrape_all_pages sample_py 4 portal_two_pages ∅ None
  = Done (antennas_of_pages portal_two_pages ∅ 1 (Z.to_nat (3 - 1)))
      (events_of_pages ∅ 1 (Z.to_nat (3 - 1)) ++ [EvPost (page_form ∅ 3)]).
Proof.
  refine (proj1 (proj2 (empty_page_ends_scrape sample_py portal_two_pages ∅ None 3 _)) _ _ _ 4%nat _).
  - exists (Response 200 (Soup [layout_table] None None [])).
    split; vm_compute; reflexivity.
  - lia.
  - intros j Hj. assert (j = 1 ∨ j = 2)%Z as [-> | ->] by lia; vm_compute; reflexivity.
  - reflexivity.
  - lia.
Defined.


Lemma transport_errors_end_paging_witness :
  search_municipality sample_py (fun s => s) 3
    (portal_failing (Raise RequestException)) "Χαλκιδέων" None
  = Done (antennas_of_pages (portal_failing (Raise RequestException))
            (<["token" := VStr "abc"]> (base_search_data "12")) 1 (Z.to_nat (2 - 1)))
      ([EvGet; EvGet]
       ++ events_of_pages (<["token" := VStr "abc"]> (base_search_data "12")) 1
            (Z.to_nat (2 - 1))
       ++ [EvPost (page_form (<["token" := VStr "abc"]> (base_search_data "12")) 2)]).
Proof.
  refine (proj2 (proj2 (proj2
    (transport_errors_end_paging sample_py (fun s => s)
       (portal_failing (Raise RequestException)) "Χαλκιδέων" None))
    (<["token" := VStr "abc"]> (base_search_data "12")) 2%Z _ _) _ _ _ 3%nat _).
  - vm_compute. reflexivity.
  - left. vm_compute. reflexivity.
  - lia.
  - intros j Hj. assert (j = 1)%Z as -> by lia. vm_compute. reflexivity.
  - reflexivity.
  - lia.
Defined.


Lemma bad_page_discards_partial_data_witness :
  search_municipality sample_py (fun s => s) 1 portal_superscript "Χαλκιδέων" None
  = Failed ValueError
      ([EvGet; EvGet]
       ++ events_of_pages (<["token" := VStr "abc"]> (base_search_data "12")) 1
            (Z.to_nat (1 - 1))
       ++ [EvPost (page_form (<["token" := VStr "abc"]> (base_search_data "12")) 1)])
  ∧ page_antennas portal_superscript
      (<["token" := VStr "abc"]> (base_search_data "12")) 1
    = [record_of "1001"].
Proof.
  apply (bad_page_discards_partial_data sample_py (fun s => s) portal_superscript
           "Χαλκιδέων" None (<["token" := VStr "abc"]> (base_search_data "12")) 1
           (Response 200 page_superscript) (record_of "1001") []).
  - vm_compute. reflexivity.
  - lia.
  - intros j Hj. lia.
  - reflexivity.
  - vm_compute. reflexivity.
  - vm_compute. reflexivity.
  - vm_compute. reflexivity.
  - lia.
Defined.

(** The same run, evaluated: the record of the page is lost, and a bound
    of one page does not help, the detector being asked before the bound
    is looked at again. *)
Example scrape_superscript :
  _scrape_all_pages sample_py 5 portal_superscript ∅ None
  = Failed ValueError [EvPost (page_form ∅ 1)]
  ∧ _scrape_all_pages sample_py 5 portal_superscript ∅ (Some 1%Z)
    = Failed ValueError [EvPost (page_form ∅ 1)]
  ∧ page_antennas portal_superscript ∅ 1 = [record_of "1001"]
  ∧ page_exception sample_py portal_superscript ∅ 1 = Some ValueError.
Proof. vm_compute. done. Qed.


Lemma delay_follows_detector_witness :
  loop_body sample_py portal_two_pages ∅ (Some 1%Z)
    (advance portal_two_pages ∅ (LoopState 1 [] []) 1)
  = Break (advance portal_two_pages ∅ (LoopState 1 [] []) 1).
Proof.
  refine (proj1 (proj2 (proj2 (proj2
    (delay_follows_detector sample_py portal_two_pages ∅ (Some 1%Z) (LoopState 1 [] []))))) _ _).
  - vm_compute. reflexivity.
  - reflexivity.
Defined.

(** C8, as the specification words it, fails: the only page has a record
    and the detector reports no next page; the run makes one request and
    no pause. *)
Lemma delay_skipped_on_last_page :
  page_antennas portal_one_page ∅ 1 = [record_of "1001"]
  ∧ page_has_next sample_py portal_one_page ∅ 1 = false
  ∧ _scrape_all_pages sample_py 2 portal_one_page ∅ None
    = Done [record_of "1001"] [EvPost (page_form ∅ 1)]
  ∧ page_requests (events_of (_scrape_all_pages sample_py 2 portal_one_page ∅ None)) = 1%nat
  ∧ sleeps (events_of (_scrape_all_pages sample_py 2 portal_one_page ∅ None)) = 0%nat
  ∧ ¬ (∀ web search_data max_pages st r a antennas,
         bound_reached max_pages (page_num st) = false →
         _make_search_request web (page_form search_data (page_num st)) = Ok (Some r) →
         _parse_results (tables (content r)) = Ok (a :: antennas) →
         sleeps (trace (state_of_step (loop_body sample_py web search_data max_pages st)))
         = S (sleeps (trace st))).
Proof.
  split_and!; [by vm_compute..|].
  intros Hspec.
  specialize (Hspec portal_one_page ∅ None (LoopState 1 [] [])
                (Response 200 (results_page [data_row "1" "1001"] None))
                (record_of "1001") []).
  vm_compute in Hspec. by specialize (Hspec eq_refl eq_refl eq_refl).
Qed.

Example max_pages_zero_three_passes :
  page_requests (events_of (_scrape_all_pages sample_py 3 portal_endless ∅ (Some 0%Z))) = 3%nat
  ∧ page_requests (events_of (_scrape_all_pages sample_py 3 portal_endless ∅ (Some 2%Z))) = 2%nat.
Proof. vm_compute. done. Qed.


Example make_search_request_statuses :
  _make_search_request
    (Portal (fun _ => Raise RequestException) (fun _ => Ok (Response 302 endless_page))) ∅
  = Ok (Some (Response 302 endless_page))
  ∧ _make_search_request
      (Portal (fun _ => Raise RequestException) (fun _ => Ok (Response 404 endless_page))) ∅
    = Ok None
  ∧ _make_search_request
      (Portal (fun _ => Raise RequestException) (fun _ => Ok (Response 599 endless_page))) ∅
    = Ok None
  ∧ _make_search_request
      (Portal (fun _ => Raise RequestException) (fun _ => Ok (Response 600 endless_page))) ∅
    = Ok (Some (Response 600 endless_page)).
Proof. vm_compute. done. Qed.

Lemma result_is_pages_requested_witness :
  [record_of "1001"; record_of "1002"; record_of "1003"]
  = antennas_of_pages portal_two_pages ∅ 1
      (page_requests [EvPost (page_form ∅ 1); EvSleep; EvPost (page_form ∅ 2); EvSleep;
                      EvPost (page_form ∅ 3)])
  ∧ (sleeps [EvPost (page_form ∅ 1); EvSleep; EvPost (page_form ∅ 2); EvSleep;
             EvPost (page_form ∅ 3)]
     = page_requests [EvPost (page_form ∅ 1); EvSleep; EvPost (page_form ∅ 2); EvSleep;
                      EvPost (page_form ∅ 3)]
     ∨ S (sleeps [EvPost (page_form ∅ 1); EvSleep; EvPost (page_form ∅ 2); EvSleep;
                  EvPost (page_form ∅ 3)])
       = page_requests [EvPost (page_form ∅ 1); EvSleep; EvPost (page_form ∅ 2); EvSleep;
                        EvPost (page_form ∅ 3)]).
Proof.
  apply (result_is_pages_requested sample_py portal_two_pages ∅ None 5).
  vm_compute. reflexivity.
Defined.

Lemma scrape_ends_at_first_stopping_page_witness :
  (page_exception sample_py portal_one_page ∅ 1 = None →
   _scrape_all_pages sample_py 1 portal_one_page ∅ None
   = Done (antennas_of_pages portal_one_page ∅ 1 (Z.to_nat 1))
       (events_of_pages ∅ 1 (Z.to_nat (1 - 1)) ++ [EvPost (page_form ∅ 1)]))
  ∧ (∀ e, page_exception sample_py portal_one_page ∅ 1 = Some e →
       _scrape_all_pages sample_py 1 portal_one_page ∅ None
       = Failed e (events_of_pages ∅ 1 (Z.to_nat (1 - 1)) ++ [EvPost (page_form ∅ 1)])).
Proof.
  apply (scrape_ends_at_first_stopping_page sample_py portal_one_page ∅ None 1 1).
  - lia.
  - intros j Hj. lia.
  - vm_compute. reflexivity.
  - reflexivity.
  - lia.
Defined.

Lemma max_pages_limits_pages_witness :
  _scrape_all_pages sample_py 2 portal_two_pages ∅ (Some 1%Z)
  = Done (antennas_of_pages portal_two_pages ∅ 1 (Z.to_nat 1))
      (events_of_pages ∅ 1 (Z.to_nat 1)).
Proof.
  refine (proj2 (max_pages_limits_pages sample_py portal_two_pages ∅ 1 _) _ 2%nat _).
  - lia.
  - intros j Hj. assert (j = 1)%Z as -> by lia. vm_compute. reflexivity.
  - lia.
Defined.


Lemma scrape_runs_while_pages_go_on_witness :
  _scrape_all_pages sample_py 4 portal_endless ∅ None = Unfinished (events_of_pages ∅ 1 4)
  ∧ page_requests (events_of (_scrape_all_pages sample_py 4 portal_endless ∅ None)) = 4%nat.
Proof.
  apply (scrape_runs_while_pages_go_on sample_py portal_endless ∅ None).
  intros j _. apply (page_goes_on_endless_unbounded sample_py).
Defined.

Lemma search_before_paging_witness :
  search_municipality sample_py (fun s => s) 3 portal_form_fails "Χαλκιδέων" None
  = Done [] [EvGet; EvGet].
Proof.
  apply (proj1 (proj2 (proj2 (search_before_paging sample_py (fun s => s) portal_form_fails
           "Χαλκιδέων" None 3))) [("Χαλκιδέων", "12")] "12").
  - vm_compute. reflexivity.
  - vm_compute. reflexivity.
  - vm_compute. reflexivity.
Defined.

Example search_name_not_found :
  search_municipality sample_py (fun s => s) 3 portal_two_pages "Πατρέων" None = Done [] [EvGet].
Proof. vm_compute. reflexivity. Qed.

(** ** Click actions *)

Example startPage_numbers :
  re_search_startPage sample_py
    (code_points "document.f.startPage.value='12';submit()")
  = Some (code_points "12")
  ∧ re_search_startPage sample_py (code_points "startPage.value=007x")
    = Some (code_points "007")
  ∧ re_search_startPage sample_py (code_points "startPage.value='x';startPage.value=3")
    = Some (code_points "3")
  ∧ re_search_startPage sample_py (code_points "startPage_value=3") = None
  ∧ re_search_startPage sample_py (code_points "go('x')") = None
  ∧ re_search_startPage sample_py (code_points "startPage.value='٣'")
    = Some [1635%N]
  ∧ re_search_startPage sample_py (code_points "startPage.value=1٣²")
    = Some [49%N; 1635%N]
  ∧ re_search_startPage sample_py (code_points "startPage.value=²") = None.
Proof. vm_compute. done. Qed.

